(** * falkon/ooc_ops/ooc_potrf.py: the policy layer of the GPU Cholesky

    A shallow embedding of [gpu_cholesky] and of the helpers it is built
    from ([can_do_ic], [_ic_cholesky], [_parallel_potrf_runner]), with the
    theorems that settle the claims made about them.

    Reading of the data:
    - Python [int] is [Z];
    - Python [float] is an exact rational [Q] (memory sizes, in bytes or in
      elements); the one float that may be infinite, [opt.max_gpu_mem], is
      a [pyfloat];
    - tensors are handles onto a store of buffers, so that in-place
      factorisation, views ([A.T]) and copies can be told apart;
    - exceptions are values of [exn] carried by [result]. *)

From Stdlib Require Import ZArith QArith Qround Qreals Reals Psatz Lia.
From Stdlib Require Import List String Bool.
From stdpp Require Import base option list gmap.
Import ListNotations.

Local Open Scope Z_scope.

(** ** Exceptions *)

Inductive exn : Type :=
| RuntimeError (msg : string)
| ValueError (msg : string).

Inductive result (A : Type) : Type :=
| Ok (a : A)
| Raise (e : exn).
Arguments Ok {A} a.
Arguments Raise {A} e.

(** ** Floats *)

(** A Python float: a finite value, read exactly, or [float('inf')]. *)
Inductive pyfloat : Type :=
| Finite (q : Q)
| PosInf.

(** [x * c] for a finite positive constant [c]. *)
Definition pyfloat_scale (x : pyfloat) (c : Q) : pyfloat :=
  match x with
  | Finite q => Finite (q * c)
  | PosInf => PosInf
  end.

(** [min(a, x)] for a finite [a]. *)
Definition min_finite (a : Q) (x : pyfloat) : Q :=
  match x with
  | Finite q => if Qle_bool a q then a else q
  | PosInf => a
  end.

(** ** Block size of the out-of-core planner

    Lines 89-96 of [_parallel_potrf_runner]. *)
Module BlockSize.

(** [4 * N**2 + 4 * avail_ram], the argument of [math.sqrt]. *)
Definition sqrt_arg (N : Z) (avail_ram : Q) : Q :=
  (inject_Z (4 * N ^ 2) + 4 * avail_ram)%Q.

(** [int(math.floor((math.sqrt(x) - 2 * N) / 2))] for [0 <= x], computed
    on integers: [floor (sqrt x / 2) = Z.sqrt (floor (x / 4))].
    [floor_half_sqrt_real] below relates it to the real square root. *)
Definition floor_half_sqrt (x : Q) (N : Z) : Z :=
  Z.sqrt (Qfloor (x / 4)) - N.


Definition msg_no_memory : string :=
  "Cannot run parallel POTRF with minimum available memory of %.2fMB".

(** [max_block_size] as the runner computes it; [math.sqrt] raises
    [ValueError] on a negative argument, and a block size below one is a
    [RuntimeError]. *)
Definition max_block_size (N : Z) (avail_ram : Q) : result Z :=
  let x := sqrt_arg N avail_ram in
  if Qlt_le_dec x 0 then Raise (ValueError "math domain error")
  else
    let b := floor_half_sqrt x N in
    if b <? 1 then Raise (RuntimeError msg_no_memory) else Ok b.




End BlockSize.

(** ** Tensors

    A tensor is a view onto a buffer of the store: transposing it or
    passing it around shares the buffer, [copy_same_stride] allocates a
    new one. *)

Inductive dtype : Type := float32 | float64.

(** Modelled from the spec: [sizeof_dtype] of falkon.utils.helpers is not
    among the sources; the matrices are "single-precision-or-double", of 4
    and 8 bytes an element. *)
Definition sizeof_dtype (dt : dtype) : Z :=
  match dt with
  | float32 => 4
  | float64 => 8
  end.

Record Tensor : Type := mkTensor {
  data : positive;          (* the buffer the tensor views *)
  shape : Z * Z;
  stride : Z * Z;
  tdtype : dtype;
  device_index : option Z;  (* [A.device.index], [None] on the host *)
  pinned : bool
}.

Definition is_cuda (A : Tensor) : bool :=
  match device_index A with
  | Some _ => true
  | None => false
  end.

(** [A.T]: the same buffer, with shape and strides swapped. *)
Definition transpose (A : Tensor) : Tensor :=
  mkTensor (data A) (snd (shape A), fst (shape A))
           (snd (stride A), fst (stride A))
           (tdtype A) (device_index A) (pinned A).

(** ** Devices and options *)

Record DeviceInfo : Type := mkDeviceInfo {
  Id : Z;
  free_memory : Q;
  actual_free_mem : Q   (* written by [gpu_cholesky] on every call *)
}.

Record FalkonOptions : Type := mkOptions {
  chol_force_in_core : bool;
  chol_force_ooc : bool;
  chol_par_blk_multiplier : Z;
  max_gpu_mem : pyfloat;
  debug : bool
}.

(** ** Block allocations

    The [defaultdict(list)] of the runner, with its five keys. *)
Record block_allocations : Type := mkAlloc {
  ba_start : list Z;
  ba_end : list Z;
  ba_size : list Z;
  ba_device_id : list Z;
  ba_id : list Z
}.

Definition empty_allocations : block_allocations := mkAlloc [] [] [] [] [].

(** One turn of the loop of lines 101-107, on the pair of the allocation
    and [cur_n]. *)
Definition allocate_block (num_gpus : Z)
    (st : block_allocations * Z) (ibs : Z * Z) : block_allocations * Z :=
  let '(ba, cur_n) := st in
  let '(i, bs) := ibs in
  (mkAlloc (ba_start ba ++ [cur_n])
           (ba_end ba ++ [cur_n + bs])
           (ba_size ba ++ [bs])
           (ba_device_id ba ++ [i mod num_gpus])
           (ba_id ba ++ [i]),
   cur_n + bs).

(** [enumerate(l)], counting from [i]. *)
Fixpoint enumerate_from (i : Z) (l : list Z) : list (Z * Z) :=
  match l with
  | [] => []
  | x :: l' => (i, x) :: enumerate_from (i + 1) l'
  end.

Definition enumerate (l : list Z) : list (Z * Z) := enumerate_from 0 l.

(** The whole loop: the allocation and the final [cur_n]. *)
Definition allocate_blocks (num_gpus : Z) (block_sizes : list Z)
    : block_allocations * Z :=
  fold_left (allocate_block num_gpus) (enumerate block_sizes)
            (empty_allocations, 0).

(** The loop in closed form: the starts and the ends of blocks of sizes
    [l] laid out from [c], and the ids counted from [i]. *)
Fixpoint starts_from (c : Z) (l : list Z) : list Z :=
  match l with
  | [] => []
  | x :: l' => c :: starts_from (c + x) l'
  end.

Fixpoint ends_from (c : Z) (l : list Z) : list Z :=
  match l with
  | [] => []
  | x :: l' => (c + x) :: ends_from (c + x) l'
  end.

Fixpoint ids_from (i : Z) (l : list Z) : list Z :=
  match l with
  | [] => []
  | _ :: l' => i :: ids_from (i + 1) l'
  end.

Definition sum_list (l : list Z) : Z := fold_right Z.add 0 l.

(** [list(range(n))]. *)
Definition range (n : Z) : list Z := map Z.of_nat (seq 0 (Z.to_nat n)).

(** What C6 asks of an allocation for a matrix of dimension [N] on
    [num_gpus] devices: five lists of one length; the [i]-th block has id
    [i] and device [i mod num_gpus]; blocks are not empty and end at their
    start plus their size; the first starts at 0, each next one where the
    one before ends, and the last ends at [N]. *)
Definition partitions (N num_gpus : Z) (ba : block_allocations) : Prop :=
  let k := length (ba_size ba) in
  (length (ba_start ba) = k /\ length (ba_end ba) = k /\
   length (ba_device_id ba) = k /\ length (ba_id ba) = k) /\
  (forall i : nat, (i < k)%nat ->
     ba_id ba !! i = Some (Z.of_nat i) /\
     ba_device_id ba !! i = Some (Z.of_nat i mod num_gpus)) /\
  (forall (i : nat) s z,
     ba_start ba !! i = Some s -> ba_size ba !! i = Some z ->
     0 < z /\ ba_end ba !! i = Some (s + z)) /\
  ba_start ba !! 0%nat = Some 0 /\
  (forall (i : nat) e,
     ba_end ba !! i = Some e -> (S i < k)%nat ->
     ba_start ba !! S i = Some e) /\
  last (ba_end ba) = Some N.

(** ** Events

    The calls the orchestrator makes to its collaborators, in order. *)
Inductive event : Type :=
| EvCopySameStride (src dst : Tensor) (pin_memory : bool)
| EvLogInfo (msg : string)
| EvCusolverPotrf (A : Tensor) (upper : bool) (n : Z) (device : Z)
| EvSynchronize (g : Z)
| EvParallelPotrf (devices : list Z) (alloc : block_allocations) (A : Tensor)
| EvZeroTriang (A : Tensor) (upper : bool).

(** The buffers a call writes to. *)
Definition touches (e : event) : list positive :=
  match e with
  | EvCopySameStride _ dst _ => [data dst]
  | EvCusolverPotrf A _ _ _ => [data A]
  | EvParallelPotrf _ _ A => [data A]
  | EvZeroTriang A _ => [data A]
  | EvLogInfo _ | EvSynchronize _ => []
  end.

(** A factorisation kernel was dispatched. *)
Definition is_kernel (e : event) : bool :=
  match e with
  | EvCusolverPotrf _ _ _ _ | EvParallelPotrf _ _ _ => true
  | _ => false
  end.

(** The other triangle was zeroed. *)
Definition is_zero_triang (e : event) : bool :=
  match e with
  | EvZeroTriang _ _ => true
  | _ => false
  end.

(** ** The collaborators

    What the orchestrator imports and this file does not define: the layout
    test, the two kernels, the triangle zeroing and the planner's choice
    of the final block size. A kernel returns the new contents of the
    buffer it worked on and, when it failed, the exception it raises. *)
Class Collaborators : Type := {
  contents : Type;
  f_contig : Z * Z -> Z * Z -> bool;  (* on a shape and its strides *)
  cusolver_potrf : Tensor -> bool -> Z -> contents -> contents * option exn;
  parallel_potrf :
    list Z -> block_allocations -> Tensor -> contents -> contents * option exn;
  zero_triang : Tensor -> bool -> contents -> contents;
  final_block_size : Z -> Z -> Z -> Z -> Z
}.

(** [is_f_contig(A)]: a test on the shape and the strides of [A]. *)
Definition is_f_contig `{Collaborators} (A : Tensor) : bool :=
  f_contig (shape A) (stride A).

(** ** A state and exception monad

    A computation reads and writes a state and either returns or raises;
    what it wrote before raising stays written. *)
Module StateErr.

Definition M (S A : Type) : Type := S -> result A * S.

Definition ret {S A} (a : A) : M S A := fun s => (Ok a, s).

Definition raise {S A} (e : exn) : M S A := fun s => (Raise e, s).

Definition bind {S A B} (m : M S A) (k : A -> M S B) : M S B :=
  fun s =>
    match m s with
    | (Ok a, s') => k a s'
    | (Raise e, s') => (Raise e, s')
    end.

Definition lift {S A} (r : result A) : M S A := fun s => (r, s).

(** [for x in l: body x]. *)
Fixpoint for_each {S A} (l : list A) (body : A -> M S unit) : M S unit :=
  match l with
  | [] => ret tt
  | x :: l' => bind (body x) (fun _ => for_each l' body)
  end.

End StateErr.
Import StateErr.

Notation "x <- m ;; k" := (bind m (fun x => k))
  (at level 90, m at level 89, right associativity).
Notation "m ;;; k" := (bind m (fun _ => k))
  (at level 90, right associativity).

(** [hint in msg], on strings. *)
Fixpoint mentions (msg hint : string) : bool :=
  String.prefix hint msg
  || match msg with
     | EmptyString => false
     | String _ msg' => mentions msg' hint
     end.

(** ** Memory budget and strategy (lines 132-144 and 186-198) *)

Definition reserved_margin : Q := inject_Z (300 * 2 ^ 20).

(** Line 188:
    [min((g.free_memory - 300 * 2**20) * 0.95, opt.max_gpu_mem * 0.95)]. *)
Definition usable_memory (opt : FalkonOptions) (g : DeviceInfo) : Q :=
  min_finite ((free_memory g - reserved_margin) * (95 # 100))%Q
             (pyfloat_scale (max_gpu_mem opt) (95 # 100)).

(** The body of the loop of lines 187-188: [g.actual_free_mem = ...]. *)
Definition set_actual_free_mem (opt : FalkonOptions) (g : DeviceInfo)
    : DeviceInfo :=
  mkDeviceInfo (Id g) (free_memory g) (usable_memory opt g).

(** Lines 186-188, on the mapping [get_device_info(opt)] returned. *)
Definition gpu_info_of (opt : FalkonOptions)
    (inventory : list (Z * DeviceInfo)) : list DeviceInfo :=
  map (set_actual_free_mem opt)
      (map snd (List.filter (fun kv => 0 <=? fst kv) inventory)).

(** [max(g :: l, key=lambda g_: g_.actual_free_mem)]: the first of the
    devices with the largest key. *)
Fixpoint max_by_free_mem (best : DeviceInfo) (l : list DeviceInfo)
    : DeviceInfo :=
  match l with
  | [] => best
  | g :: l' =>
      max_by_free_mem
        (if Qle_bool (actual_free_mem g) (actual_free_mem best)
         then best else g) l'
  end.

(** [min(x :: l)] on floats. *)
Fixpoint min_from (best : Q) (l : list Q) : Q :=
  match l with
  | [] => best
  | x :: l' => min_from (if Qle_bool best x then best else x) l'
  end.

Definition msg_not_recognized : string :=
  "Device of matrix A ({A.device}) is not recognized".

(** Lines 190-197. *)
Definition choose_device (A : Tensor) (gpu_info : list DeviceInfo)
    : result DeviceInfo :=
  match device_index A with
  | Some index =>
      match List.filter (fun d => Id d =? index) gpu_info with
      | d :: _ => Ok d
      | [] => Raise (RuntimeError msg_not_recognized)
      end
  | None =>
      match gpu_info with
      | g :: l => Ok (max_by_free_mem g l)
      | [] => Raise (ValueError "max() arg is an empty sequence")
      end
  end.

(** [needed_ram] of [can_do_ic]. *)
Definition needed_ram (A : Tensor) : Z :=
  if is_cuda A then 100 * 8
  else fst (shape A) * snd (shape A) * sizeof_dtype (tdtype A).

Definition can_do_ic (A : Tensor) (device : DeviceInfo) : bool :=
  let avail_ram := (actual_free_mem device * (85 # 100))%Q in
  Qle_bool (inject_Z (needed_ram A)) avail_ram.

(** Line 198. *)
Definition in_core (A : Tensor) (device : DeviceInfo) (opt : FalkonOptions)
    : bool :=
  can_do_ic A device && negb (chol_force_ooc opt).

Definition msg_force_in_core : string :=
  "Cannot run in-core POTRF but `chol_force_in_core` was specified.".

Definition msg_only_lower : string :=
  "GPU POTRF is only implemented on the lower triangle for Fortran-ordered matrices (or on the upper triangle for C-ordered matrices)".

Definition msg_ooc_cuda : string :=
  "Cannot run out-of-core POTRF on CUDA matrix 'A'.".

Definition msg_ooc_cuda_hint : string :=
  " Set the `chol_force_ooc` option to `False` in to allow in-core POTRF.".

(** ** The orchestrator *)
Section Orchestrator.

Context `{Collaborators}.

(** The buffers, and the calls made so far. Every tensor of a running
    program views an allocated buffer; an operation on a buffer the
    store does not hold changes nothing. *)
Record world : Type := mkWorld {
  store : gmap positive contents;
  trace : list event
}.

Definition emit (e : event) : M world unit :=
  fun w => (Ok tt, mkWorld (store w) (trace w ++ [e])).

(** A kernel that works in place on the buffer [l]: what it wrote stays
    when it fails. *)
Definition in_place (l : positive)
    (kernel : contents -> contents * option exn) : M world unit :=
  fun w =>
    match store w !! l with
    | None => (Ok tt, w)
    | Some c =>
        let '(c', err) := kernel c in
        let w' := mkWorld (<[l := c']> (store w)) (trace w) in
        match err with
        | None => (Ok tt, w')
        | Some e => (Raise e, w')
        end
    end.

(** A kernel that works on a staged copy of the buffer [l], copied back
    when the kernel is done: nothing is written when it fails. *)
Definition staged (l : positive)
    (kernel : contents -> contents * option exn) : M world unit :=
  fun w =>
    match store w !! l with
    | None => (Ok tt, w)
    | Some c =>
        let '(c', err) := kernel c in
        match err with
        | None => (Ok tt, mkWorld (<[l := c']> (store w)) (trace w))
        | Some e => (Raise e, w)
        end
    end.

(** Modelled from the spec: [copy_same_stride] of
    falkon.utils.tensor_helpers is not among the sources; it returns "a
    copy ... made with matching strides and pinned for fast transfer",
    in a buffer of its own. *)
Definition copy_same_stride (A : Tensor) (pin_memory : bool)
    : M world Tensor :=
  fun w =>
    let l := fresh (dom (store w)) in
    let A' := mkTensor l (shape A) (stride A) (tdtype A)
                       (device_index A) pin_memory in
    (Ok A',
     mkWorld (match store w !! data A with
              | Some c => <[l := c]> (store w)
              | None => store w
              end)
             (trace w ++ [EvCopySameStride A A' pin_memory])).

(** [la_helpers.zero_triang(A, upper=...)], in place. *)
Definition zero_triang_op (A : Tensor) (upper : bool) : M world unit :=
  emit (EvZeroTriang A upper) ;;;
  in_place (data A) (fun c => (zero_triang A upper c, None)).

(** Lines 21-77. The matrix on the host is staged on the device and
    copied back after the kernel; the matrix on a device is factorised
    where it is. *)
Definition _ic_cholesky (A : Tensor) (upper : bool) (device : Z)
    : M world Tensor :=
  if negb (is_f_contig A)
  then raise (RuntimeError "Cholesky input must be F-contiguous")
  else
    let n := fst (shape A) in
    emit (EvCusolverPotrf A upper n device) ;;;
    (if is_cuda A
     then in_place (data A) (cusolver_potrf A upper n)
     else staged (data A) (cusolver_potrf A upper n)) ;;;
    ret A.

(** Modelled from the spec: [calc_block_sizes] of ooc_utils is not among
    the sources. "Given the maximum safe block size and a configured
    multiplier ..., derive the final block size and partition [0, n)
    into contiguous blocks of that size (the last block may be
    shorter), in order". How the final size is derived is left to
    [final_block_size]. *)
Definition calc_block_sizes (max_block_size num_gpus N multiplier : Z)
    : list Z :=
  let bs := final_block_size max_block_size num_gpus N multiplier in
  repeat bs (Z.to_nat (N / bs))
    ++ (if N mod bs =? 0 then [] else [N mod bs]).

(** Lines 80-120. *)
Definition _parallel_potrf_runner (A : Tensor) (opt : FalkonOptions)
    (gpu_info : list DeviceInfo) : M world Tensor :=
  let num_gpus := Z.of_nat (length gpu_info) in
  let N := fst (shape A) in
  let dts := sizeof_dtype (tdtype A) in
  match map actual_free_mem gpu_info with
  | [] => raise (ValueError "min() arg is an empty sequence")
  | m :: ms =>
      let avail_ram := (min_from m ms / inject_Z dts)%Q in
      max_block_size <- lift (BlockSize.max_block_size N avail_ram) ;;
      let block_sizes :=
        calc_block_sizes max_block_size num_gpus N
                         (chol_par_blk_multiplier opt) in
      let block_allocations := fst (allocate_blocks num_gpus block_sizes) in
      for_each (range num_gpus) (fun g => emit (EvSynchronize g)) ;;;
      emit (EvParallelPotrf (range num_gpus) block_allocations A) ;;;
      in_place (data A) (parallel_potrf (range num_gpus) block_allocations A) ;;;
      ret A
  end.

(** Lines 147-240. [inventory] is what [get_device_info(opt)] returns
    on this call, as the list of its items. *)
Definition gpu_cholesky (inventory : list (Z * DeviceInfo))
    (A : Tensor) (upper clean overwrite : bool) (opt : FalkonOptions)
    : M world Tensor :=
  A <- (if negb overwrite then copy_same_stride A true else ret A) ;;
  let gpu_info := gpu_info_of opt inventory in
  device <- lift (choose_device A gpu_info) ;;
  let ic := in_core A device opt in
  if chol_force_in_core opt && negb ic
  then raise (RuntimeError msg_force_in_core)
  else
    let f_order := is_f_contig A in
    let '(A, upper, transposed) :=
      if negb f_order then (transpose A, negb upper, true)
      else (A, upper, false) in
    if upper && negb ic then raise (ValueError msg_only_lower)
    else if negb ic && is_cuda A
    then raise (ValueError
                  (if chol_force_ooc opt
                   then msg_ooc_cuda ++ msg_ooc_cuda_hint
                   else msg_ooc_cuda))
    else
      (if ic
       then
         (if debug opt then emit (EvLogInfo "Using in-core POTRF")
          else ret tt) ;;;
         _ic_cholesky A upper (Id device)
       else
         (if debug opt then emit (EvLogInfo "Using parallel POTRF")
          else ret tt) ;;;
         _parallel_potrf_runner A opt gpu_info) ;;;
      (if clean then zero_triang_op A (negb upper) else ret tt) ;;;
      ret (if transposed then transpose A else A).

(** *** Names for the stages of [gpu_cholesky] *)

(** The copy [copy_same_stride A True] returns in the world [w]. *)
Definition copy_of (A : Tensor) (w : world) : Tensor :=
  mkTensor (fresh (dom (store w))) (shape A) (stride A) (tdtype A)
           (device_index A) true.

(** The tensor [gpu_cholesky] works on, after lines 177-180. *)
Definition working_tensor (A : Tensor) (overwrite : bool) (w : world)
    : Tensor :=
  if overwrite then A else copy_of A w.

(** The tensor and the triangle after lines 202-207. *)
Definition normalized (A : Tensor) : Tensor :=
  if is_f_contig A then A else transpose A.

Definition normalized_upper (A : Tensor) (upper : bool) : bool :=
  if is_f_contig A then upper else negb upper.

(** Lines 223-240, once the strategy [ic] is chosen and the layout is
    normalised to [A] and [upper]. *)
Definition dispatch_and_finalize (A : Tensor) (upper clean transposed ic : bool)
    (device : DeviceInfo) (gpu_info : list DeviceInfo) (opt : FalkonOptions)
    : M world Tensor :=
  (if ic
   then
     (if debug opt then emit (EvLogInfo "Using in-core POTRF")
      else ret tt) ;;;
     _ic_cholesky A upper (Id device)
   else
     (if debug opt then emit (EvLogInfo "Using parallel POTRF")
      else ret tt) ;;;
     _parallel_potrf_runner A opt gpu_info) ;;;
  (if clean then zero_triang_op A (negb upper) else ret tt) ;;;
  ret (if transposed then transpose A else A).

(** The call lines 177-180 make. *)
Definition copy_events (A : Tensor) (overwrite : bool) (w : world)
    : list event :=
  if overwrite then [] else [EvCopySameStride A (copy_of A w) true].

(** The world after lines 177-180. *)
Definition after_copy (A : Tensor) (overwrite : bool) (w : world) : world :=
  if overwrite then w else snd (copy_same_stride A true w).

(** A computation whose calls all satisfy [P]. *)
Definition emits {X : Type} (P : event -> Prop) (m : M world X) : Prop :=
  forall w, exists evs,
    trace (snd (m w)) = trace w ++ evs /\ Forall P evs.

(** A computation that leaves every buffer but [l] as it is. *)
Definition frames {X : Type} (l : positive) (m : M world X) : Prop :=
  forall w l', l' <> l -> store (snd (m w)) !! l' = store w !! l'.

(** What a call made after the strategy is chosen may be: the in-core
    kernel on [A] and [upper] when [ic] holds, the out-of-core kernel on
    [A] when it does not, the zeroing of the other triangle of [A] when
    [clean] holds, a log line or a synchronisation; never a copy. *)
Definition stage_event (A : Tensor) (upper clean ic : bool)
    (device : DeviceInfo) (e : event) : Prop :=
  match e with
  | EvCusolverPotrf A' upper' _ d =>
      ic = true /\ A' = A /\ upper' = upper /\ d = Id device
  | EvParallelPotrf _ _ A' => ic = false /\ A' = A
  | EvZeroTriang A' upper' => clean = true /\ A' = A /\ upper' = negb upper
  | EvCopySameStride _ _ _ => False
  | EvLogInfo _ | EvSynchronize _ => True
  end.

(** What a call made for a tensor [A] that is not column-major may be:
    a kernel on [A.T] with the triangle flipped (lower, for the
    out-of-core kernel), the zeroing on [A.T] of the complement of the
    flipped triangle when [clean] holds, a log line or a synchronisation. *)
Definition transposed_event (A : Tensor) (upper clean : bool) (e : event)
    : Prop :=
  match e with
  | EvCusolverPotrf A' upper' _ _ => A' = transpose A /\ upper' = negb upper
  | EvParallelPotrf _ _ A' => A' = transpose A /\ negb upper = false
  | EvZeroTriang A' upper' =>
      clean = true /\ A' = transpose A /\ upper' = negb (negb upper)
  | EvCopySameStride _ _ _ => False
  | EvLogInfo _ | EvSynchronize _ => True
  end.

End Orchestrator.

(** Two inventories of the same devices with the same free memory, which
    may differ in what an earlier call left in [actual_free_mem]. *)
Definition same_devices (inv inv' : list (Z * DeviceInfo)) : Prop :=
  Forall2 (fun kg kg' =>
             fst kg = fst kg' /\ Id (snd kg) = Id (snd kg') /\
             free_memory (snd kg) = free_memory (snd kg'))
          inv inv'.

(** ** Stand-ins for the collaborators

    Enough of an implementation to run the orchestrator on examples: a
    buffer holds one number, the in-core kernel adds 1 to it, the
    out-of-core kernel adds 2, zeroing a triangle multiplies it by 10; a
    tensor is column-major when its first stride is 1; the final block
    size is the maximal one. *)
Definition demo : Collaborators := {|
  contents := Z;
  f_contig := fun _ st => fst st =? 1;
  cusolver_potrf := fun _ _ _ c => (c + 1, None);
  parallel_potrf := fun _ _ _ c => (c + 2, None);
  zero_triang := fun _ _ c => c * 10;
  final_block_size := fun mbs _ _ _ => mbs
|}.

(** The same, with an in-core kernel that fails after adding 1. *)
Definition demo_failing : Collaborators := {|
  contents := Z;
  f_contig := fun _ st => fst st =? 1;
  cusolver_potrf := fun _ _ _ c => (c + 1, Some (RuntimeError "potrf failed"));
  parallel_potrf := fun _ _ _ c => (c + 2, None);
  zero_triang := fun _ _ c => c * 10;
  final_block_size := fun mbs _ _ _ => mbs
|}.

(** A 4x4 matrix of doubles in the buffer [l], column-major or row-major,
    on the host or on device [d]. *)
Definition demo_tensor (l : positive) (f_order : bool) (dev : option Z)
    : Tensor :=
  mkTensor l (4, 4) (if f_order then (1, 4) else (4, 1)) float64 dev false.

(** A world whose buffer 1 holds 7. *)
Definition demo_world : @world demo :=
  @mkWorld demo (<[1%positive := 7]> ∅) [].

(** A device with [gib] GiB of free memory. *)
Definition demo_device (id gib : Z) : Z * DeviceInfo :=
  (id, mkDeviceInfo id (inject_Z (gib * 2 ^ 30)) 0).

Definition demo_options (force_in_core force_ooc : bool) : FalkonOptions :=
  mkOptions force_in_core force_ooc 2 PosInf false.

(** * Facts *)

(** ** The block size *)
Module BlockSizeFacts.
Import BlockSize.

Lemma sqrt_arg_quarter (N : Z) (A : Q) :
  (sqrt_arg N A / 4 == inject_Z (N ^ 2) + A)%Q.
Proof. unfold sqrt_arg. rewrite inject_Z_mult. field. Qed.

(** [floor (N^2 + A) = N^2 + floor A]. *)
Lemma floor_quarter (N : Z) (A : Q) :
  Qfloor (sqrt_arg N A / 4) = N ^ 2 + Qfloor A.
Proof.
  rewrite sqrt_arg_quarter.
  pose proof (Qfloor_le A) as Hlo.
  pose proof (Qlt_floor A) as Hhi.
  rewrite inject_Z_plus in Hhi. change (inject_Z 1) with 1%Q in Hhi.
  apply Z.le_antisymm; apply Z.lt_succ_r; rewrite Zlt_Qlt; unfold Z.succ.
  - eapply Qle_lt_trans; [apply Qfloor_le|].
    rewrite !inject_Z_plus. change (inject_Z 1) with 1%Q. lra.
  - eapply Qle_lt_trans; [|apply Qlt_floor].
    rewrite inject_Z_plus. lra.
Qed.






(** A block size the planner returns is at least one. *)
Lemma max_block_size_ge_1 (N : Z) (A : Q) (b : Z) :
  max_block_size N A = Ok b -> 1 <= b.
Proof.
  unfold max_block_size.
  destruct (Qlt_le_dec (sqrt_arg N A) 0); [discriminate|].
  destruct (floor_half_sqrt (sqrt_arg N A) N <? 1) eqn:Hb; [discriminate|].
  intros [= <-]. now apply Z.ltb_ge in Hb.
Qed.




(** *** When the planner succeeds, and what more memory buys *)


Lemma sqrt_arg_nonneg_iff (N : Z) (A : Q) :
  (0 <= sqrt_arg N A)%Q <-> (inject_Z (- N ^ 2) <= A)%Q.
Proof.
  unfold sqrt_arg. rewrite inject_Z_opp, inject_Z_mult.
  change (inject_Z 4) with 4%Q.
  generalize (inject_Z (N ^ 2)). intros q. split; intros; lra.
Qed.



(** More memory never gives a smaller block: when the planner returns [b]
    for [A] elements it returns some [b' >= b] for any [A' >= A]. *)
Theorem max_block_size_monotone (N : Z) (A A' : Q) (b : Z) :
  (A <= A')%Q ->
  max_block_size N A = Ok b ->
  exists b', max_block_size N A' = Ok b' /\ b <= b'.
Proof.
  intros HA. unfold max_block_size.
  destruct (Qlt_le_dec (sqrt_arg N A) 0) as [|Hx]; [discriminate|].
  destruct (floor_half_sqrt (sqrt_arg N A) N <? 1) eqn:Hb; [discriminate|].
  intros [= <-]. apply Z.ltb_ge in Hb.
  assert (Hx' : (0 <= sqrt_arg N A')%Q).
  { apply sqrt_arg_nonneg_iff. apply sqrt_arg_nonneg_iff in Hx.
    eapply Qle_trans; eassumption. }
  destruct (Qlt_le_dec (sqrt_arg N A') 0) as [C|_].
  { exfalso. exact (Qlt_irrefl _ (Qlt_le_trans _ _ _ C Hx')). }
  assert (Hm : floor_half_sqrt (sqrt_arg N A) N
               <= floor_half_sqrt (sqrt_arg N A') N).
  { unfold floor_half_sqrt. rewrite !floor_quarter.
    apply Z.sub_le_mono_r, Z.sqrt_le_mono, Z.add_le_mono_l.
    now apply Qfloor_resp_le. }
  destruct (floor_half_sqrt (sqrt_arg N A') N <? 1) eqn:Hb'.
  - apply Z.ltb_lt in Hb'. lia.
  - eauto.
Qed.





End BlockSizeFacts.

(** ** The block allocation *)
Module AllocationFacts.

Lemma allocate_blocks_from (g : Z) (l : list Z) :
  forall (ba : block_allocations) (c i : Z),
    fold_left (allocate_block g) (enumerate_from i l) (ba, c) =
    (mkAlloc (ba_start ba ++ starts_from c l)
             (ba_end ba ++ ends_from c l)
             (ba_size ba ++ l)
             (ba_device_id ba ++ map (fun j => j mod g) (ids_from i l))
             (ba_id ba ++ ids_from i l),
     c + sum_list l).
Proof.
  induction l as [|x l IH]; intros ba c i; simpl.
  - rewrite !app_nil_r, Z.add_0_r. now destruct ba.
  - rewrite IH. simpl. rewrite <- !app_assoc. simpl.
    f_equal. lia.
Qed.

(** The loop of lines 99-107 in closed form. *)
Lemma allocate_blocks_closed (g : Z) (l : list Z) :
  allocate_blocks g l =
  (mkAlloc (starts_from 0 l) (ends_from 0 l) l
           (map (fun j => j mod g) (ids_from 0 l)) (ids_from 0 l),
   sum_list l).
Proof. unfold allocate_blocks, enumerate. now rewrite allocate_blocks_from. Qed.

Lemma ids_from_range (l : list Z) :
  forall i, ids_from i l = map (fun k => i + Z.of_nat k) (seq 0 (length l)).
Proof.
  induction l as [|x l IH]; intros i; simpl; [reflexivity|].
  f_equal; [lia|]. rewrite IH, <- seq_shift, map_map.
  apply map_ext. intros k. lia.
Qed.

Lemma length_starts_from (l : list Z) : forall c, length (starts_from c l) = length l.
Proof. induction l; intros c; simpl; auto. Qed.

Lemma length_ends_from (l : list Z) : forall c, length (ends_from c l) = length l.
Proof. induction l; intros c; simpl; auto. Qed.

(** Each block ends where it starts plus its size. *)
Lemma end_is_start_plus_size (l : list Z) :
  forall c (i : nat) s z,
    starts_from c l !! i = Some s -> l !! i = Some z ->
    ends_from c l !! i = Some (s + z).
Proof.
  induction l as [|x l IH]; intros c i s z; [discriminate|].
  destruct i as [|i]; simpl.
  - intros [= <-] [= <-]. reflexivity.
  - apply IH.
Qed.

(** Each block starts where the one before it ends. *)
Lemma next_start_is_end (l : list Z) :
  forall c (i : nat) e,
    ends_from c l !! i = Some e -> (S i < length l)%nat ->
    starts_from c l !! S i = Some e.
Proof.
  induction l as [|x l IH]; intros c i e; [discriminate|].
  destruct i as [|i]; simpl.
  - intros [= <-] Hlen. destruct l; simpl in *; [lia|reflexivity].
  - intros He Hlen. apply IH; [exact He|lia].
Qed.

Lemma last_ends_from (l : list Z) :
  forall c, l <> [] -> last (ends_from c l) = Some (c + sum_list l).
Proof.
  induction l as [|x l IH]; intros c Hne; [congruence|].
  destruct l as [|y l].
  - simpl. f_equal. lia.
  - change (ends_from c (x :: y :: l)) with ((c + x) :: ends_from (c + x) (y :: l)).
    change (ends_from (c + x) (y :: l))
      with ((c + x + y) :: ends_from (c + x + y) l).
    rewrite last_cons_cons.
    change ((c + x + y) :: ends_from (c + x + y) l)
      with (ends_from (c + x) (y :: l)).
    rewrite IH by discriminate. simpl. f_equal. lia.
Qed.

Lemma sum_list_app (l1 l2 : list Z) :
  sum_list (l1 ++ l2) = sum_list l1 + sum_list l2.
Proof. induction l1; simpl; lia. Qed.

Lemma sum_list_repeat (x : Z) (n : nat) :
  sum_list (repeat x n) = x * Z.of_nat n.
Proof. induction n; simpl repeat; simpl sum_list; lia. Qed.

Lemma ids_from_lookup (l : list Z) (i : nat) :
  (i < length l)%nat -> ids_from 0 l !! i = Some (Z.of_nat i).
Proof.
  intros Hi. rewrite ids_from_range, list_lookup_fmap.
  rewrite lookup_seq_lt by exact Hi. reflexivity.
Qed.

(** Sizes that are positive and add up to [N] are laid out, by the loop of
    the runner, as a partition of [0, N). *)
Lemma allocate_blocks_partitions (N num_gpus : Z) (l : list Z) :
  l <> [] -> Forall (fun z => 0 < z) l -> sum_list l = N ->
  partitions N num_gpus (fst (allocate_blocks num_gpus l)).
Proof.
  intros Hne Hpos Hsum. rewrite allocate_blocks_closed.
  unfold partitions. simpl.
  split; [|split; [|split; [|split; [|split]]]].
  - rewrite length_starts_from, length_ends_from, length_map.
    rewrite ids_from_range, length_map, length_seq. auto.
  - intros i Hi. rewrite list_lookup_fmap, ids_from_lookup by exact Hi.
    auto.
  - intros i s z Hs Hz. split.
    + rewrite Forall_forall in Hpos. apply Hpos.
      apply list_elem_of_lookup. eauto.
    + eapply end_is_start_plus_size; eassumption.
  - destruct l; [congruence|reflexivity].
  - intros i e. apply next_start_is_end.
  - rewrite last_ends_from by exact Hne. f_equal. lia.
Qed.

(** *** The loop on any list of sizes *)

Lemma starts_from_lookup (l : list Z) :
  forall c (i : nat), (i < length l)%nat ->
    starts_from c l !! i = Some (c + sum_list (take i l)).
Proof.
  induction l as [|x l IH]; intros c i Hi; simpl in Hi; [lia|].
  destruct i as [|i]; simpl.
  - f_equal. lia.
  - rewrite IH by lia. f_equal. lia.
Qed.

Lemma ends_from_lookup (l : list Z) :
  forall c (i : nat), (i < length l)%nat ->
    ends_from c l !! i = Some (c + sum_list (take (S i) l)).
Proof.
  induction l as [|x l IH]; intros c i Hi; simpl in Hi; [lia|].
  destruct i as [|i].
  - destruct l; simpl; f_equal; lia.
  - change (ends_from c (x :: l) !! S i) with (ends_from (c + x) l !! i).
    rewrite IH by lia. f_equal.
    change (take (S (S i)) (x :: l)) with (x :: take (S i) l).
    simpl. lia.
Qed.

(** Whatever the sizes, the loop of lines 99-107 starts the [i]-th block
    at the sum of the sizes before it and ends it at the sum of the sizes
    up to it, and leaves in [cur_n] the sum of all the sizes. *)
Theorem allocation_is_prefix_sums (num_gpus : Z) (l : list Z) (i : nat) :
  (i < length l)%nat ->
  ba_start (fst (allocate_blocks num_gpus l)) !! i
    = Some (sum_list (take i l)) /\
  ba_end (fst (allocate_blocks num_gpus l)) !! i
    = Some (sum_list (take (S i) l)) /\
  ba_size (fst (allocate_blocks num_gpus l)) = l /\
  snd (allocate_blocks num_gpus l) = sum_list l.
Proof.
  intros Hi. rewrite allocate_blocks_closed. simpl.
  rewrite starts_from_lookup, ends_from_lookup by exact Hi.
  auto.
Qed.

(** With at least one device, every block is given to one of the devices
    the kernel is handed, [range(num_gpus)]. *)
Theorem allocation_devices_are_visible (num_gpus : Z) (l : list Z) (d : Z) :
  0 < num_gpus ->
  In d (ba_device_id (fst (allocate_blocks num_gpus l))) ->
  0 <= d < num_gpus /\ In d (range num_gpus).
Proof.
  intros Hg. rewrite allocate_blocks_closed. simpl.
  intros Hd. apply in_map_iff in Hd as (j & <- & _).
  pose proof (Z.mod_pos_bound j num_gpus Hg) as Hb.
  split; [exact Hb|].
  unfold range. apply in_map_iff.
  exists (Z.to_nat (j mod num_gpus)). split; [lia|].
  apply in_seq. lia.
Qed.

(** Round-robin from device 0: a device is given a block exactly when its
    index is below the number of blocks; with more devices than blocks the
    devices beyond get none. *)
Theorem allocation_round_robin (num_gpus : Z) (l : list Z) (d : Z) :
  0 <= d < num_gpus ->
  (In d (ba_device_id (fst (allocate_blocks num_gpus l)))
   <-> d < Z.of_nat (length l)).
Proof.
  intros Hd. rewrite allocate_blocks_closed. simpl.
  rewrite ids_from_range, map_map. split.
  - intros Hin. apply in_map_iff in Hin as (j & Hj & Hin).
    apply in_seq in Hin. simpl in Hj. rewrite Z.add_0_l in Hj.
    assert (Hle : Z.of_nat j mod num_gpus <= Z.of_nat j)
      by (apply Z.mod_le; lia).
    lia.
  - intros Hlt. apply in_map_iff. exists (Z.to_nat d). split.
    + rewrite Z.add_0_l, Z2Nat.id by lia. apply Z.mod_small. lia.
    + apply in_seq. lia.
Qed.


End AllocationFacts.

Section PlannerFacts.

Context `{Collaborators}.

Import AllocationFacts.

(** The sizes of the planner are not empty, positive, and add up to [N]. *)
Lemma calc_block_sizes_sum (mbs g N m : Z) :
  1 <= N -> 1 <= final_block_size mbs g N m ->
  calc_block_sizes mbs g N m <> [] /\
  Forall (fun z => 0 < z) (calc_block_sizes mbs g N m) /\
  sum_list (calc_block_sizes mbs g N m) = N.
Proof.
  intros HN Hbs. unfold calc_block_sizes.
  set (bs := final_block_size mbs g N m) in *.
  pose proof (Z.div_mod N bs ltac:(lia)) as Hd.
  pose proof (Z.mod_pos_bound N bs ltac:(lia)) as Hm.
  assert (Hq : 0 <= N / bs) by (apply Z.div_pos; lia).
  split; [|split].
  - destruct (N mod bs =? 0) eqn:E.
    + apply Z.eqb_eq in E. rewrite app_nil_r.
      assert (1 <= N / bs) by nia.
      destruct (Z.to_nat (N / bs)) eqn:En; [lia|discriminate].
    + intros C. apply app_eq_nil in C as [_ C]. discriminate.
  - apply Forall_app. split.
    + apply Forall_forall. intros z Hz.
      apply list_elem_of_In, repeat_spec in Hz. lia.
    + destruct (N mod bs =? 0) eqn:E; [constructor|].
      apply Z.eqb_neq in E. repeat constructor. lia.
  - rewrite sum_list_app, sum_list_repeat, Z2Nat.id by exact Hq.
    destruct (N mod bs =? 0) eqn:E.
    + apply Z.eqb_eq in E. simpl. lia.
    + simpl. lia.
Qed.

(** Every block but the last has the final block size, and the last is
    no longer. *)
Lemma calc_block_sizes_shape (mbs g N m : Z) (i : nat) (z : Z) :
  1 <= N -> 1 <= final_block_size mbs g N m ->
  calc_block_sizes mbs g N m !! i = Some z ->
  z <= final_block_size mbs g N m /\
  ((S i < length (calc_block_sizes mbs g N m))%nat ->
   z = final_block_size mbs g N m).
Proof.
  intros HN Hbs. unfold calc_block_sizes.
  set (bs := final_block_size mbs g N m) in *.
  pose proof (Z.mod_pos_bound N bs ltac:(lia)) as Hm.
  intros Hz.
  destruct (decide (i < length (repeat bs (Z.to_nat (N / bs))))%nat) as [Hi|Hi].
  - rewrite lookup_app_l in Hz by exact Hi.
    apply list_elem_of_lookup_2, list_elem_of_In, repeat_spec in Hz. lia.
  - rewrite lookup_app_r in Hz by lia.
    destruct (N mod bs =? 0); [now rewrite lookup_nil in Hz|].
    rewrite length_app. simpl.
    destruct (i - length (repeat bs (Z.to_nat (N / bs))))%nat eqn:Ei;
      [|now rewrite lookup_cons, lookup_nil in Hz].
    injection Hz as <-. split; lia.
Qed.

Lemma bind_run {S A B : Type} (m : M S A) (k : A -> M S B) (s : S) :
  bind m k s =
  match m s with
  | (Ok a, s') => k a s'
  | (Raise e, s') => (Raise e, s')
  end.
Proof. reflexivity. Qed.

Lemma for_each_emit (l : list Z) (w : world) :
  for_each l (fun g => emit (EvSynchronize g)) w =
  (Ok tt, mkWorld (store w) (trace w ++ map EvSynchronize l)).
Proof.
  revert w. induction l as [|g l IH]; intros w; simpl.
  - rewrite app_nil_r. now destruct w.
  - rewrite bind_run. unfold emit at 1. rewrite IH. simpl.
    now rewrite <- app_assoc.
Qed.

Lemma in_place_trace (l : positive) k (w : world) :
  trace (snd (in_place l k w)) = trace w.
Proof.
  unfold in_place. destruct (store w !! l); [|reflexivity].
  destruct (k c) as [c' [e|]]; reflexivity.
Qed.

(** What the runner adds to the trace: nothing when it raises before the
    dispatch, else the synchronisations and one dispatch, of the
    allocation built from the planner's sizes. *)
Lemma runner_trace (A : Tensor) (opt : FalkonOptions)
    (gpu_info : list DeviceInfo) (w : world) :
  let num_gpus := Z.of_nat (length gpu_info) in
  let N := fst (shape A) in
  trace (snd (_parallel_potrf_runner A opt gpu_info w)) = trace w \/
  exists mbs,
    1 <= mbs /\
    trace (snd (_parallel_potrf_runner A opt gpu_info w)) =
    trace w ++ map EvSynchronize (range num_gpus)
      ++ [EvParallelPotrf (range num_gpus)
            (fst (allocate_blocks num_gpus
                    (calc_block_sizes mbs num_gpus N
                       (chol_par_blk_multiplier opt)))) A].
Proof.
  intros num_gpus N. unfold _parallel_potrf_runner.
  destruct (map actual_free_mem gpu_info) as [|m ms]; [now left|].
  fold num_gpus N.
  rewrite bind_run. unfold lift.
  destruct (BlockSize.max_block_size N _) as [mbs|e] eqn:Hb; [|now left].
  right. exists mbs. split.
  { now apply BlockSizeFacts.max_block_size_ge_1 in Hb. }
  rewrite bind_run, for_each_emit. cbv beta iota.
  rewrite bind_run. unfold emit at 1. cbv beta iota. cbn [trace store].
  rewrite bind_run.
  match goal with
  | |- context [in_place ?l ?k ?w0] =>
      pose proof (in_place_trace l k w0) as Ht;
      destruct (in_place l k w0) as [[[]|e] w1]
  end; simpl in *; rewrite Ht, <- app_assoc; reflexivity.
Qed.

(** C6. The allocation the out-of-core runner hands to the kernel, for a
    matrix of dimension [N >= 1] and a final block size of at least one:
    the [i]-th block has id [i] and device [i mod num_gpus], every block
    ends at its start plus its size and is not empty, the first starts at
    0, each next one starts where the one before ends, the last ends at
    [N], and every block but the last has one size, the last being no
    longer. *)
Theorem runner_allocation_partitions (A : Tensor) (opt : FalkonOptions)
    (gpu_info : list DeviceInfo) (w : world) (evs : list event)
    (devices : list Z) (ba : block_allocations) (A' : Tensor) :
  let num_gpus := Z.of_nat (length gpu_info) in
  let N := fst (shape A) in
  1 <= N ->
  (forall mbs, 1 <= mbs ->
     1 <= final_block_size mbs num_gpus N (chol_par_blk_multiplier opt)) ->
  trace (snd (_parallel_potrf_runner A opt gpu_info w)) = trace w ++ evs ->
  In (EvParallelPotrf devices ba A') evs ->
  partitions N num_gpus ba /\
  exists bs, forall (i : nat) z,
    ba_size ba !! i = Some z ->
    z <= bs /\ ((S i < length (ba_size ba))%nat -> z = bs).
Proof.
  intros num_gpus N HN Hbs Htr Hin.
  destruct (runner_trace A opt gpu_info w) as [E|(mbs & Hm & E)];
    fold num_gpus N in E; rewrite E in Htr.
  - rewrite <- (app_nil_r (trace w)) in Htr at 1.
    apply app_inv_head in Htr. subst evs. destruct Hin.
  - apply app_inv_head in Htr. subst evs.
    apply in_app_or in Hin as [Hin|[Hin|[]]].
    + apply in_map_iff in Hin as (g & Hg & _). discriminate.
    + injection Hin as _ <- _. specialize (Hbs mbs Hm).
      destruct (calc_block_sizes_sum mbs num_gpus N
                  (chol_par_blk_multiplier opt) HN Hbs) as (Hne & Hpos & Hsum).
      split.
      * now apply allocate_blocks_partitions.
      * exists (final_block_size mbs num_gpus N (chol_par_blk_multiplier opt)).
        rewrite allocate_blocks_closed. simpl. intros i z Hz.
        now apply calc_block_sizes_shape.
Qed.

End PlannerFacts.

(** The theorem on a 10x10 matrix and two devices with room for 96
    elements each: blocks of 4, 4 and 2 rows. *)
Lemma runner_allocation_partitions_witness :
  let A := mkTensor 1 (10, 10) (1, 10) float64 None false in
  let gpu_info := [mkDeviceInfo 0 0 768; mkDeviceInfo 1 0 800] in
  let ba := mkAlloc [0; 4; 8] [4; 8; 10] [4; 4; 2] [0; 1; 0] [0; 1; 2] in
  @trace demo (snd (@_parallel_potrf_runner demo A (demo_options false false)
                      gpu_info demo_world)) =
  [EvSynchronize 0; EvSynchronize 1; EvParallelPotrf [0; 1] ba A] /\
  (partitions 10 2 ba /\
   exists bs, forall (i : nat) z,
     ba_size ba !! i = Some z ->
     z <= bs /\ ((S i < length (ba_size ba))%nat -> z = bs)).
Proof.
  intros A gpu_info ba.
  assert (E : @trace demo (snd (@_parallel_potrf_runner demo A
                (demo_options false false) gpu_info demo_world)) =
              [EvSynchronize 0; EvSynchronize 1; EvParallelPotrf [0; 1] ba A])
    by (vm_compute; reflexivity).
  split; [exact E|].
  apply (@runner_allocation_partitions demo A (demo_options false false)
           gpu_info demo_world
           [EvSynchronize 0; EvSynchronize 1; EvParallelPotrf [0; 1] ba A]
           [0; 1] ba A).
  - simpl. lia.
  - intros mbs Hm. exact Hm.
  - exact E.
  - simpl. auto.
Defined.

(** ** The orchestrator *)
Section OrchestratorFacts.

Context `{Collaborators}.

Lemma transpose_involutive (A : Tensor) : transpose (transpose A) = A.
Proof. destruct A as [l [a b] [c d] dt dev p]. reflexivity. Qed.

Lemma choose_device_working (A : Tensor) (overwrite : bool) (w : world) gpu_info :
  choose_device (working_tensor A overwrite w) gpu_info = choose_device A gpu_info.
Proof. now destruct overwrite. Qed.

Lemma in_core_working (A : Tensor) (overwrite : bool) (w : world) device opt :
  in_core (working_tensor A overwrite w) device opt = in_core A device opt.
Proof. now destruct overwrite. Qed.

Lemma is_f_contig_working (A : Tensor) (overwrite : bool) (w : world) :
  is_f_contig (working_tensor A overwrite w) = is_f_contig A.
Proof. now destruct overwrite. Qed.

Lemma is_cuda_normalized (A : Tensor) : is_cuda (normalized A) = is_cuda A.
Proof. unfold normalized. now destruct (is_f_contig A). Qed.

Lemma is_cuda_working (A : Tensor) (overwrite : bool) (w : world) :
  is_cuda (working_tensor A overwrite w) = is_cuda A.
Proof. now destruct overwrite. Qed.

(** [gpu_cholesky], stage by stage. *)
Lemma gpu_cholesky_run (inventory : list (Z * DeviceInfo)) (A : Tensor)
    (upper clean overwrite : bool) (opt : FalkonOptions) (w : world) :
  let A1 := working_tensor A overwrite w in
  let w1 := after_copy A overwrite w in
  let gpu_info := gpu_info_of opt inventory in
  gpu_cholesky inventory A upper clean overwrite opt w =
  match choose_device A gpu_info with
  | Raise e => (Raise e, w1)
  | Ok device =>
      let ic := in_core A device opt in
      if chol_force_in_core opt && negb ic
      then (Raise (RuntimeError msg_force_in_core), w1)
      else if normalized_upper A upper && negb ic
      then (Raise (ValueError msg_only_lower), w1)
      else if negb ic && is_cuda A
      then (Raise (ValueError
                     (if chol_force_ooc opt
                      then (msg_ooc_cuda ++ msg_ooc_cuda_hint)%string
                      else msg_ooc_cuda)), w1)
      else dispatch_and_finalize (normalized A1) (normalized_upper A upper)
             clean (negb (is_f_contig A)) ic device gpu_info opt w1
  end.
Proof.
  intros A1 w1 gpu_info. unfold gpu_cholesky. rewrite bind_run.
  assert (E : (if negb overwrite then copy_same_stride A true else ret A) w
              = (Ok A1, w1)) by (subst A1 w1; now destruct overwrite).
  rewrite E. clear E. rewrite bind_run. unfold lift. fold gpu_info.
  replace (choose_device A1 gpu_info) with (choose_device A gpu_info)
    by (symmetry; apply choose_device_working).
  destruct (choose_device A gpu_info) as [device|e]; [|reflexivity].
  cbv zeta.
  replace (in_core A1 device opt) with (in_core A device opt)
    by (symmetry; apply in_core_working).
  destruct (chol_force_in_core opt && negb (in_core A device opt));
    [reflexivity|].
  unfold normalized_upper, normalized.
  replace (is_f_contig A1) with (is_f_contig A)
    by (symmetry; apply is_f_contig_working).
  assert (Hc : is_cuda (transpose A1) = is_cuda A)
    by (subst A1; now destruct overwrite).
  assert (Hc' : is_cuda A1 = is_cuda A) by apply is_cuda_working.
  destruct (is_f_contig A); cbn [negb]; [rewrite Hc'|rewrite Hc];
    destruct (_ && negb _); try reflexivity;
    destruct (negb _ && is_cuda A); reflexivity.
Qed.

(** *** Calls and frames of the stages *)

Lemma emits_ret {X} (P : event -> Prop) (x : X) : emits P (ret x).
Proof. intros w. exists []. now rewrite app_nil_r. Qed.

Lemma emits_raise {X} (P : event -> Prop) (e : exn) : emits (X := X) P (raise e).
Proof. intros w. exists []. now rewrite app_nil_r. Qed.

Lemma emits_lift {X} (P : event -> Prop) (r : result X) : emits P (lift r).
Proof. intros w. exists []. now rewrite app_nil_r. Qed.

Lemma emits_bind {X Y} (P : event -> Prop) (m : M world X) (k : X -> M world Y) :
  emits P m -> (forall x, emits P (k x)) -> emits P (bind m k).
Proof.
  intros Hm Hk w. rewrite bind_run.
  destruct (Hm w) as (evs & E & HP).
  destruct (m w) as [[x|e] w1]; simpl in E.
  - destruct (Hk x w1) as (evs' & E' & HP').
    exists (evs ++ evs'). rewrite E', E, app_assoc. split; [reflexivity|].
    now apply Forall_app.
  - exists evs. auto.
Qed.

Lemma emits_emit (P : event -> Prop) (e : event) : P e -> emits P (emit e).
Proof. intros He w. exists [e]. split; [reflexivity|]. now repeat constructor. Qed.

Lemma emits_in_place (P : event -> Prop) l k : emits P (in_place l k).
Proof. intros w. exists []. now rewrite in_place_trace, app_nil_r. Qed.

Lemma emits_staged (P : event -> Prop) l k : emits P (staged l k).
Proof.
  intros w. exists []. rewrite app_nil_r. split; [|constructor].
  unfold staged. destruct (store w !! l); [|reflexivity].
  destruct (k c) as [c' [e|]]; reflexivity.
Qed.

Lemma emits_for_each {X} (P : event -> Prop) (l : list X) body :
  (forall x, emits P (body x)) -> emits P (for_each l body).
Proof.
  intros Hb. induction l as [|x l IH]; simpl.
  - apply emits_ret.
  - apply emits_bind; auto.
Qed.

Lemma frames_ret {X} l (x : X) : frames l (ret x).
Proof. now intros w l' _. Qed.

Lemma frames_raise {X} l (e : exn) : frames (X := X) l (raise e).
Proof. now intros w l' _. Qed.

Lemma frames_lift {X} l (r : result X) : frames l (lift r).
Proof. now intros w l' _. Qed.

Lemma frames_emit l (e : event) : frames l (emit e).
Proof. now intros w l' _. Qed.

Lemma frames_bind {X Y} l (m : M world X) (k : X -> M world Y) :
  frames l m -> (forall x, frames l (k x)) -> frames l (bind m k).
Proof.
  intros Hm Hk w l' Hl. rewrite bind_run.
  specialize (Hm w l' Hl).
  destruct (m w) as [[x|e] w1]; simpl in Hm; [|exact Hm].
  now rewrite (Hk x w1 l' Hl).
Qed.

Lemma frames_in_place l k : frames l (in_place l k).
Proof.
  intros w l' Hl. unfold in_place. destruct (store w !! l); [|reflexivity].
  destruct (k c) as [c' [e|]]; simpl; now rewrite lookup_insert_ne.
Qed.

Lemma frames_staged l k : frames l (staged l k).
Proof.
  intros w l' Hl. unfold staged. destruct (store w !! l); [|reflexivity].
  destruct (k c) as [c' [e|]]; simpl; [reflexivity|].
  now rewrite lookup_insert_ne.
Qed.

Lemma frames_for_each {X} l (xs : list X) body :
  (forall x, frames l (body x)) -> frames l (for_each xs body).
Proof.
  intros Hb. induction xs as [|x xs IH]; simpl.
  - apply frames_ret.
  - apply frames_bind; auto.
Qed.

Create HintDb stages.

#[local] Hint Resolve emits_ret emits_raise emits_lift emits_in_place
  emits_staged frames_ret frames_raise frames_lift frames_emit
  frames_in_place frames_staged : stages.

Lemma dispatch_emits (A : Tensor) (upper clean transposed ic : bool)
    (device : DeviceInfo) (gpu_info : list DeviceInfo) (opt : FalkonOptions) :
  emits (stage_event A upper clean ic device)
        (dispatch_and_finalize A upper clean transposed ic device gpu_info opt).
Proof.
  unfold dispatch_and_finalize.
  apply emits_bind; [|intros _; apply emits_bind; [|auto with stages]].
  - destruct ic.
    + apply emits_bind.
      { destruct (debug opt); [apply emits_emit; exact I|auto with stages]. }
      intros _. unfold _ic_cholesky.
      destruct (negb (is_f_contig A)); [auto with stages|].
      apply emits_bind; [apply emits_emit; now simpl|intros _].
      apply emits_bind; [|auto with stages].
      destruct (is_cuda A); auto with stages.
    + apply emits_bind.
      { destruct (debug opt); [apply emits_emit; exact I|auto with stages]. }
      intros _. unfold _parallel_potrf_runner.
      destruct (map actual_free_mem gpu_info); [auto with stages|].
      apply emits_bind; [auto with stages|intros mbs].
      apply emits_bind.
      { apply emits_for_each. intros g. apply emits_emit. exact I. }
      intros _. apply emits_bind; [apply emits_emit; now simpl|intros _].
      apply emits_bind; auto with stages.
  - destruct clean; [|auto with stages].
    unfold zero_triang_op.
    apply emits_bind; [apply emits_emit; now simpl|auto with stages].
Qed.

Lemma dispatch_frames (A : Tensor) (upper clean transposed ic : bool)
    (device : DeviceInfo) (gpu_info : list DeviceInfo) (opt : FalkonOptions) :
  frames (data A)
         (dispatch_and_finalize A upper clean transposed ic device gpu_info opt).
Proof.
  unfold dispatch_and_finalize.
  apply frames_bind; [|intros _; apply frames_bind; [|auto with stages]].
  - destruct ic.
    + apply frames_bind; [destruct (debug opt); auto with stages|intros _].
      unfold _ic_cholesky.
      destruct (negb (is_f_contig A)); [auto with stages|].
      apply frames_bind; [auto with stages|intros _].
      apply frames_bind; [|auto with stages].
      destruct (is_cuda A); auto with stages.
    + apply frames_bind; [destruct (debug opt); auto with stages|intros _].
      unfold _parallel_potrf_runner.
      destruct (map actual_free_mem gpu_info); [auto with stages|].
      apply frames_bind; [auto with stages|intros mbs].
      apply frames_bind.
      { apply frames_for_each. auto with stages. }
      intros _. apply frames_bind; [auto with stages|intros _].
      apply frames_bind; auto with stages.
  - destruct clean; [|auto with stages].
    unfold zero_triang_op. apply frames_bind; auto with stages.
Qed.

Lemma after_copy_trace (A : Tensor) (overwrite : bool) (w : world) :
  trace (after_copy A overwrite w) = trace w ++ copy_events A overwrite w.
Proof.
  unfold after_copy, copy_events. destruct overwrite; simpl.
  - now rewrite app_nil_r.
  - reflexivity.
Qed.

Lemma staged_trace (l : positive) k (w : world) :
  trace (snd (staged l k w)) = trace w.
Proof.
  unfold staged. destruct (store w !! l); [|reflexivity].
  destruct (k c) as [c' [e|]]; reflexivity.
Qed.

Lemma data_normalized (A : Tensor) : data (normalized A) = data A.
Proof. unfold normalized. now destruct (is_f_contig A). Qed.

Lemma stage_event_touches A upper clean ic device e :
  stage_event A upper clean ic device e ->
  forall l, In l (touches e) -> l = data A.
Proof.
  destruct e; simpl; intros He l Hl; try contradiction.
  - destruct He as (_ & -> & _). now destruct Hl.
  - destruct He as (_ & ->). now destruct Hl.
  - destruct He as (_ & -> & _). now destruct Hl.
Qed.

(** A successful in-core factorisation made exactly one call. *)
Lemma ic_cholesky_ok (A : Tensor) (upper : bool) (d : Z) (w w' : world) R :
  _ic_cholesky A upper d w = (Ok R, w') ->
  R = A /\
  trace w' = trace w ++ [EvCusolverPotrf A upper (fst (shape A)) d].
Proof.
  unfold _ic_cholesky. destruct (negb (is_f_contig A)); [discriminate|].
  rewrite bind_run. unfold emit at 1. cbv beta iota.
  rewrite bind_run.
  set (w0 := mkWorld _ _).
  assert (Ht : forall m : M world unit,
             trace (snd (m w0)) = trace w0 ->
             match m w0 with
             | (Ok a, s') => ret A s'
             | (Raise e, s') => (Raise e, s')
             end = (Ok R, w') ->
             R = A /\ trace w' = trace w0).
  { intros m Hm. destruct (m w0) as [[[]|e] s']; [|discriminate].
    intros [= <- <-]. auto. }
  destruct (is_cuda A); intros E; apply Ht in E; auto using in_place_trace, staged_trace.
Qed.

(** A successful out-of-core factorisation synchronised the devices and
    then made one call. *)
Lemma runner_ok (A : Tensor) (opt : FalkonOptions)
    (gpu_info : list DeviceInfo) (w w' : world) R :
  _parallel_potrf_runner A opt gpu_info w = (Ok R, w') ->
  R = A /\
  exists ba,
    trace w' = trace w
      ++ map EvSynchronize (range (Z.of_nat (length gpu_info)))
      ++ [EvParallelPotrf (range (Z.of_nat (length gpu_info))) ba A].
Proof.
  unfold _parallel_potrf_runner.
  destruct (map actual_free_mem gpu_info) as [|m ms]; [discriminate|].
  rewrite bind_run. unfold lift.
  destruct (BlockSize.max_block_size _ _) as [mbs|e]; [|discriminate].
  rewrite bind_run, for_each_emit. cbv beta iota.
  rewrite bind_run. unfold emit at 1. cbv beta iota. cbn [trace store].
  rewrite bind_run.
  match goal with
  | |- context [in_place ?l ?k ?w0] =>
      pose proof (in_place_trace l k w0) as Ht;
      destruct (in_place l k w0) as [[[]|e] w1]
  end; [|discriminate].
  intros [= <- <-]. split; [reflexivity|].
  eexists. simpl in Ht. rewrite Ht, <- app_assoc. reflexivity.
Qed.

Lemma zero_triang_op_run (A : Tensor) (upper : bool) (w : world) :
  fst (zero_triang_op A upper w) = Ok tt /\
  trace (snd (zero_triang_op A upper w)) = trace w ++ [EvZeroTriang A upper].
Proof.
  unfold zero_triang_op. rewrite bind_run. unfold emit. cbv beta iota.
  unfold in_place. cbn [store trace].
  destruct (store w !! data A); auto.
Qed.

(** A successful run of lines 223-240: log lines and synchronisations,
    then the kernel of the chosen strategy on [A], then the zeroing of
    the other triangle when [clean] holds; the result is [A], transposed
    when [transposed] holds. *)
Lemma dispatch_ok (A : Tensor) (upper clean transposed ic : bool)
    (device : DeviceInfo) (gpu_info : list DeviceInfo) (opt : FalkonOptions)
    (w w' : world) R :
  dispatch_and_finalize A upper clean transposed ic device gpu_info opt w
    = (Ok R, w') ->
  R = (if transposed then transpose A else A) /\
  exists pre k,
    trace w' = trace w ++ pre
      ++ k :: (if clean then [EvZeroTriang A (negb upper)] else []) /\
    Forall (fun e => is_kernel e = false /\ touches e = []) pre /\
    (if ic then k = EvCusolverPotrf A upper (fst (shape A)) (Id device)
     else exists devices ba, k = EvParallelPotrf devices ba A).
Proof.
  unfold dispatch_and_finalize. rewrite bind_run.
  set (log := fun msg : string =>
                if debug opt then emit (EvLogInfo msg) else ret tt).
  assert (Hlog : forall msg (w0 : world), exists pre,
             log msg w0 = (Ok tt, mkWorld (store w0) (trace w0 ++ pre)) /\
             Forall (fun e => is_kernel e = false /\ touches e = []) pre).
  { intros msg w0. unfold log. destruct (debug opt).
    - exists [EvLogInfo msg]. split; [reflexivity|]. now repeat constructor.
    - exists []. rewrite app_nil_r. split; [now destruct w0|constructor]. }
  assert (Hk : forall w1,
             (if ic
              then log "Using in-core POTRF"%string ;;;
                   _ic_cholesky A upper (Id device)
              else log "Using parallel POTRF"%string ;;;
                   _parallel_potrf_runner A opt gpu_info) w = (Ok A, w1) ->
             exists pre k,
               trace w1 = trace w ++ pre ++ [k] /\
               Forall (fun e => is_kernel e = false /\ touches e = []) pre /\
               (if ic then k = EvCusolverPotrf A upper (fst (shape A)) (Id device)
                else exists devices ba, k = EvParallelPotrf devices ba A)).
  { intros w1. destruct ic; rewrite bind_run.
    - destruct (Hlog "Using in-core POTRF"%string w) as (pre & -> & Hpre).
      intros E. apply ic_cholesky_ok in E as (_ & E). simpl in E.
      exists pre, (EvCusolverPotrf A upper (fst (shape A)) (Id device)).
      rewrite E, <- app_assoc. auto.
    - destruct (Hlog "Using parallel POTRF"%string w) as (pre & -> & Hpre).
      intros E. apply runner_ok in E as (_ & ba & E). simpl in E.
      eexists (pre ++ map EvSynchronize _), _.
      rewrite E, <- !app_assoc. split; [reflexivity|]. split; [|eauto].
      apply Forall_app. split; [exact Hpre|].
      apply Forall_forall. intros e He.
      apply list_elem_of_In, in_map_iff in He as (g & <- & _). auto. }
  fold (log "Using in-core POTRF"%string) (log "Using parallel POTRF"%string).
  match goal with
  | |- context [match ?m w with _ => _ end] =>
      assert (HA : forall R1 w1, m w = (Ok R1, w1) -> R1 = A);
      [|destruct (m w) as [[R1|e] w1] eqn:Em; [|discriminate]]
  end.
  { intros R1 w1. destruct ic; rewrite bind_run.
    - destruct (Hlog "Using in-core POTRF"%string w) as (pre & -> & _).
      intros E. now apply ic_cholesky_ok in E.
    - destruct (Hlog "Using parallel POTRF"%string w) as (pre & -> & _).
      intros E. now apply runner_ok in E. }
  pose proof (HA _ _ eq_refl) as ->.
  destruct (Hk w1 eq_refl) as (pre & k & Et & Hpre & Hkk).
  rewrite bind_run.
  destruct clean.
  - destruct (zero_triang_op_run A (negb upper) w1) as [Ez Etz].
    destruct (zero_triang_op A (negb upper) w1) as [r w2]. simpl in Ez, Etz.
    subst r. intros [= <- <-]. split; [reflexivity|].
    exists pre, k. rewrite Etz, Et, <- !app_assoc. auto.
  - intros [= <- <-]. split; [reflexivity|].
    exists pre, k. rewrite Et. auto.
Qed.

(** *** The strategy *)

Lemma max_by_free_mem_In (l : list DeviceInfo) :
  forall g, In (max_by_free_mem g l) (g :: l).
Proof.
  induction l as [|x l IH]; intros g; simpl; [auto|].
  destruct (Qle_bool (actual_free_mem x) (actual_free_mem g)).
  - destruct (IH g) as [E|E]; auto.
  - destruct (IH x) as [E|E]; auto.
Qed.

(** The chosen device is one of the visible devices. *)
Lemma choose_device_In (A : Tensor) (gpu_info : list DeviceInfo) device :
  choose_device A gpu_info = Ok device -> In device gpu_info.
Proof.
  unfold choose_device. destruct (device_index A) as [index|].
  - destruct (List.filter _ gpu_info) as [|d l] eqn:E; [discriminate|].
    intros [= <-].
    assert (Hd : In d (List.filter (fun d => Id d =? index) gpu_info))
      by (rewrite E; now left).
    now apply filter_In in Hd.
  - destruct gpu_info as [|g l]; [discriminate|].
    intros [= <-]. apply max_by_free_mem_In.
Qed.

(** Every visible device carries the usable memory of line 188. *)
Lemma gpu_info_of_usable (opt : FalkonOptions)
    (inventory : list (Z * DeviceInfo)) (g : DeviceInfo) :
  In g (gpu_info_of opt inventory) -> actual_free_mem g = usable_memory opt g.
Proof.
  unfold gpu_info_of. intros Hg.
  apply in_map_iff in Hg as (g0 & <- & _). reflexivity.
Qed.

(** C5. With [chol_force_in_core] set and the in-core strategy not
    selected, [gpu_cholesky] raises the configuration error at once: the
    world is as lines 177-180 left it, and the only call made is the copy
    of the input when [overwrite] is false; no kernel is invoked. *)
Theorem force_in_core_never_falls_back (inventory : list (Z * DeviceInfo))
    (A : Tensor) (upper clean overwrite : bool) (opt : FalkonOptions)
    (w : world) (device : DeviceInfo) :
  choose_device A (gpu_info_of opt inventory) = Ok device ->
  in_core A device opt = false ->
  chol_force_in_core opt = true ->
  gpu_cholesky inventory A upper clean overwrite opt w =
    (Raise (RuntimeError msg_force_in_core), after_copy A overwrite w) /\
  trace (after_copy A overwrite w) = trace w ++ copy_events A overwrite w /\
  Forall (fun e => is_kernel e = false) (copy_events A overwrite w).
Proof.
  intros Hd Hic Hf. rewrite gpu_cholesky_run, Hd. cbv zeta.
  rewrite Hic, Hf. split; [reflexivity|].
  split; [apply after_copy_trace|].
  unfold copy_events. destruct overwrite; repeat constructor.
Qed.

(** C9, for the inputs on which a device is chosen. With both
    [chol_force_in_core] and [chol_force_ooc] set, [gpu_cholesky] raises
    the force-in-core configuration error whatever the matrix, its
    residency and the memory of the devices, and invokes no kernel. *)
Theorem both_forced_is_an_error (inventory : list (Z * DeviceInfo))
    (A : Tensor) (upper clean overwrite : bool) (opt : FalkonOptions)
    (w : world) (device : DeviceInfo) :
  choose_device A (gpu_info_of opt inventory) = Ok device ->
  chol_force_in_core opt = true ->
  chol_force_ooc opt = true ->
  gpu_cholesky inventory A upper clean overwrite opt w =
    (Raise (RuntimeError msg_force_in_core), after_copy A overwrite w) /\
  trace (after_copy A overwrite w) = trace w ++ copy_events A overwrite w /\
  Forall (fun e => is_kernel e = false) (copy_events A overwrite w).
Proof.
  intros Hd Hf Ho. rewrite gpu_cholesky_run, Hd. cbv zeta.
  unfold in_core. rewrite Ho, Hf, andb_false_r. split; [reflexivity|].
  split; [apply after_copy_trace|].
  unfold copy_events. destruct overwrite; repeat constructor.
Qed.

(** C4, as the code orders its checks. With the out-of-core strategy
    selected and the triangle upper after normalisation, or the matrix on
    a device, [gpu_cholesky] raises before any kernel is invoked. When
    the matrix is on a device, [chol_force_ooc] is set,
    [chol_force_in_core] is not and the triangle is lower after
    normalisation, the message carries the hint to unset
    [chol_force_ooc]. *)
Theorem out_of_core_unsupported (inventory : list (Z * DeviceInfo))
    (A : Tensor) (upper clean overwrite : bool) (opt : FalkonOptions)
    (w : world) (device : DeviceInfo) :
  choose_device A (gpu_info_of opt inventory) = Ok device ->
  in_core A device opt = false ->
  normalized_upper A upper = true \/ is_cuda A = true ->
  (exists e,
     gpu_cholesky inventory A upper clean overwrite opt w =
       (Raise e, after_copy A overwrite w)) /\
  trace (after_copy A overwrite w) = trace w ++ copy_events A overwrite w /\
  Forall (fun e => is_kernel e = false) (copy_events A overwrite w) /\
  (is_cuda A = true -> chol_force_ooc opt = true ->
   chol_force_in_core opt = false -> normalized_upper A upper = false ->
   fst (gpu_cholesky inventory A upper clean overwrite opt w) =
     Raise (ValueError (msg_ooc_cuda ++ msg_ooc_cuda_hint)%string) /\
   mentions (msg_ooc_cuda ++ msg_ooc_cuda_hint) msg_ooc_cuda_hint = true).
Proof.
  intros Hd Hic Hor. rewrite gpu_cholesky_run, Hd. cbv zeta. rewrite Hic.
  split; [|split; [apply after_copy_trace|split]].
  - destruct (chol_force_in_core opt); simpl; [eauto|].
    destruct (normalized_upper A upper); simpl; [eauto|].
    destruct Hor as [Hu|Hc]; [discriminate|]. rewrite Hc. eauto.
  - unfold copy_events. destruct overwrite; repeat constructor.
  - intros Hc Ho Hf Hu. rewrite Hf, Hu, Hc, Ho. simpl.
    split; [reflexivity|]. vm_compute. reflexivity.
Qed.

(** C2. [gpu_cholesky] selects the in-core strategy exactly when
    [chol_force_ooc] is not set and 0.85 times the usable memory of the
    chosen device is at least [needed_ram]: [n^2 * element_size] for an
    [n x n] matrix on the host, 800 bytes for one on a device. The
    in-core kernel is invoked only when the strategy is selected, the
    out-of-core kernel only when it is not. *)
Theorem in_core_iff_memory_suffices (inventory : list (Z * DeviceInfo))
    (A : Tensor) (upper clean overwrite : bool) (opt : FalkonOptions)
    (w : world) (device : DeviceInfo) (n : Z) :
  shape A = (n, n) ->
  choose_device A (gpu_info_of opt inventory) = Ok device ->
  let needed := if is_cuda A then 800 else n ^ 2 * sizeof_dtype (tdtype A) in
  let suffices :=
    chol_force_ooc opt = false /\
    (inject_Z needed <= usable_memory opt device * (85 # 100))%Q in
  (in_core A device opt = true <-> suffices) /\
  forall evs,
    trace (snd (gpu_cholesky inventory A upper clean overwrite opt w)) =
      trace w ++ evs ->
    (forall A' u n' d, In (EvCusolverPotrf A' u n' d) evs -> suffices) /\
    (forall devices ba A', In (EvParallelPotrf devices ba A') evs ->
                           ~ suffices).
Proof.
  intros Hs Hd needed suffices.
  assert (Hiff : in_core A device opt = true <-> suffices).
  { unfold in_core, can_do_ic, suffices.
    rewrite andb_true_iff, negb_true_iff, Qle_bool_iff.
    rewrite <- (gpu_info_of_usable opt inventory device)
      by (eapply choose_device_In; eassumption).
    replace (needed_ram A) with needed; [tauto|].
    unfold needed_ram, needed. rewrite Hs. simpl.
    destruct (is_cuda A); [reflexivity|ring]. }
  split; [exact Hiff|].
  intros evs. rewrite gpu_cholesky_run, Hd. cbv zeta.
  assert (Hnone : trace (after_copy A overwrite w) = trace w ++ evs ->
                  (forall A' u n' d, In (EvCusolverPotrf A' u n' d) evs -> suffices) /\
                  (forall devices ba A', In (EvParallelPotrf devices ba A') evs ->
                                         ~ suffices)).
  { rewrite after_copy_trace. intros E. apply app_inv_head in E. subst evs.
    unfold copy_events.
    split; intros; destruct overwrite; simpl in *;
      repeat match goal with
             | Hx : _ \/ _ |- _ => destruct Hx
             | Hx : False |- _ => destruct Hx
             | Hx : EvCopySameStride _ _ _ = _ |- _ => discriminate Hx
             end. }
  destruct (chol_force_in_core opt && _); [exact Hnone|].
  destruct (normalized_upper A upper && _); [exact Hnone|].
  destruct (negb _ && is_cuda A); [exact Hnone|].
  match goal with
  | |- context [dispatch_and_finalize ?a ?u ?c ?t ?i ?d ?g ?o ?w1] =>
      destruct (dispatch_emits a u c t i d g o w1) as (evs' & E & HP)
  end.
  rewrite E, after_copy_trace, <- app_assoc. intros E'.
  apply app_inv_head in E'. subst evs.
  assert (Hin : forall e, In e (copy_events A overwrite w ++ evs') ->
                          is_kernel e = true -> In e evs').
  { intros e He Hk. apply in_app_or in He as [He|He]; [|exact He].
    unfold copy_events in He. destruct overwrite; [destruct He|].
    destruct He as [<-|[]]. discriminate. }
  rewrite Forall_forall in HP.
  split.
  - intros A' u n' d He. apply Hin in He; [|reflexivity].
    apply list_elem_of_In, HP in He. apply Hiff. apply He.
  - intros devices ba A' He. apply Hin in He; [|reflexivity].
    apply list_elem_of_In, HP in He. destruct He as [He _].
    intros C. apply Hiff in C. congruence.
Qed.

(** C10. For a matrix on a device, [can_do_ic] holds exactly when 0.85
    times the usable memory of the device is at least 800 bytes, whatever
    the shape and the element type of the matrix. *)
Theorem device_resident_needs_800_bytes (A : Tensor) (device : DeviceInfo) :
  is_cuda A = true ->
  needed_ram A = 800 /\
  (can_do_ic A device = true <->
   (800 <= actual_free_mem device * (85 # 100))%Q) /\
  forall A', is_cuda A' = true -> can_do_ic A' device = can_do_ic A device.
Proof.
  intros Hc.
  assert (Hn : forall B, is_cuda B = true -> needed_ram B = 800).
  { intros B HB. unfold needed_ram. now rewrite HB. }
  split; [now apply Hn|]. split.
  - unfold can_do_ic. rewrite (Hn A Hc), Qle_bool_iff. reflexivity.
  - intros A' Hc'. unfold can_do_ic. now rewrite (Hn A Hc), (Hn A' Hc').
Qed.

(** *** The copy *)

Lemma copy_of_fresh (A : Tensor) (w : world) :
  is_Some (store w !! data A) -> data (copy_of A w) <> data A.
Proof.
  intros HA E. apply elem_of_dom in HA. rewrite <- E in HA.
  simpl in HA. exact (is_fresh (dom (store w)) HA).
Qed.

(** Copying leaves the original buffer as it is. *)
Lemma copy_keeps_original (A : Tensor) (w : world) :
  is_Some (store w !! data A) ->
  store (snd (copy_same_stride A true w)) !! data A = store w !! data A.
Proof.
  intros HA. pose proof (copy_of_fresh A w HA) as Hne. simpl in Hne.
  unfold copy_same_stride. simpl.
  destruct (store w !! data A) eqn:E; rewrite ?E; [|reflexivity].
  rewrite lookup_insert_ne by exact Hne. exact E.
Qed.

(** C3. With [overwrite] false, the buffer of the caller holds after the
    call what it held before, whether the call returns or raises. The
    first call made is the copy, into a buffer of its own, with the shape
    and the strides of the input, pinned; every later call writes to the
    buffer of the copy only, and the tensor returned views it. *)
Theorem no_overwrite_keeps_the_input (inventory : list (Z * DeviceInfo))
    (A : Tensor) (upper clean : bool) (opt : FalkonOptions) (w : world) :
  is_Some (store w !! data A) ->
  let r := gpu_cholesky inventory A upper clean false opt w in
  let C := copy_of A w in
  store (snd r) !! data A = store w !! data A /\
  (data C <> data A /\ shape C = shape A /\ stride C = stride A /\
   pinned C = true) /\
  (exists evs,
     trace (snd r) = trace w ++ EvCopySameStride A C true :: evs /\
     Forall (fun e => forall l, In l (touches e) -> l = data C) evs) /\
  (forall R, fst r = Ok R -> data R = data C).
Proof.
  intros HA r C.
  pose proof (copy_of_fresh A w HA) as Hne. fold C in Hne.
  pose proof (copy_keeps_original A w HA) as Hkeep.
  assert (Hw1 : trace (after_copy A false w)
                = trace w ++ [EvCopySameStride A C true]) by reflexivity.
  assert (Hraise : forall e,
             r = (Raise e, after_copy A false w) ->
             store (snd r) !! data A = store w !! data A /\
             (exists evs,
                trace (snd r) = trace w ++ EvCopySameStride A C true :: evs /\
                Forall (fun e => forall l, In l (touches e) -> l = data C) evs) /\
             (forall R, fst r = Ok R -> data R = data C)).
  { intros e ->. split; [exact Hkeep|]. split; [|discriminate].
    exists []. split; [exact Hw1|constructor]. }
  split; [|split; [now repeat split|]];
    revert Hraise; subst r; rewrite gpu_cholesky_run; cbv zeta;
    fold C; change (working_tensor A false w) with C;
    (destruct (choose_device A _) as [device|e]; [|intros Hr; now apply (Hr e)]);
    (destruct (chol_force_in_core opt && _); [intros Hr; now eapply Hr|]);
    (destruct (normalized_upper A upper && _); [intros Hr; now eapply Hr|]);
    (destruct (negb _ && is_cuda A); [intros Hr; now eapply Hr|]);
    intros _.
  - rewrite dispatch_frames; [exact Hkeep|].
    rewrite data_normalized. auto.
  - split.
    + match goal with
      | |- context [dispatch_and_finalize ?a ?u ?c ?t ?i ?d ?g ?o ?w1] =>
          destruct (dispatch_emits a u c t i d g o w1) as (evs & E & HP)
      end.
      exists evs. rewrite E, Hw1, <- app_assoc. split; [reflexivity|].
      eapply Forall_impl; [exact HP|]. intros e He l Hl.
      rewrite (stage_event_touches _ _ _ _ _ _ He l Hl).
      apply data_normalized.
    + intros R HR.
      match goal with
      | HR : fst ?m = Ok R |- _ => destruct m as [r1 w'] eqn:Em
      end.
      simpl in HR. subst r1. apply dispatch_ok in Em as [-> _].
      destruct (negb (is_f_contig A)); simpl; apply data_normalized.
Qed.

(** *** The layout *)

(** C7. For an input that is not column-major, every call after the copy
    is made on the transpose of the working tensor, with the triangle
    flipped; when the call returns, the tensor returned is that transpose
    transposed back, and, when [clean] holds, the last call made, after
    the kernel, zeroes on the transpose the complement of the flipped
    triangle. *)
Theorem row_major_is_factorised_transposed (inventory : list (Z * DeviceInfo))
    (A : Tensor) (upper clean overwrite : bool) (opt : FalkonOptions)
    (w : world) :
  is_f_contig A = false ->
  let r := gpu_cholesky inventory A upper clean overwrite opt w in
  let A1 := working_tensor A overwrite w in
  (exists evs,
     trace (snd r) = trace w ++ copy_events A overwrite w ++ evs /\
     Forall (transposed_event A1 upper clean) evs) /\
  (forall R, fst r = Ok R ->
     R = transpose (transpose A1) /\
     exists pre k,
       trace (snd r) = trace w ++ copy_events A overwrite w ++ pre
         ++ k :: (if clean
                  then [EvZeroTriang (transpose A1) (negb (negb upper))]
                  else []) /\
       Forall (fun e => is_kernel e = false) pre /\
       is_kernel k = true /\ touches k = [data (transpose A1)]).
Proof.
  intros Hf r A1.
  assert (Hraise : forall e,
             r = (Raise e, after_copy A overwrite w) ->
             (exists evs,
                trace (snd r) = trace w ++ copy_events A overwrite w ++ evs /\
                Forall (transposed_event A1 upper clean) evs) /\
             (forall R, fst r = Ok R ->
                R = transpose (transpose A1) /\
                exists pre k,
                  trace (snd r) = trace w ++ copy_events A overwrite w ++ pre
                    ++ k :: (if clean
                             then [EvZeroTriang (transpose A1) (negb (negb upper))]
                             else []) /\
                  Forall (fun e => is_kernel e = false) pre /\
                  is_kernel k = true /\ touches k = [data (transpose A1)])).
  { intros e ->. split; [|discriminate].
    exists []. rewrite app_nil_r. split; [apply after_copy_trace|constructor]. }
  revert Hraise. subst r. rewrite gpu_cholesky_run. cbv zeta.
  destruct (choose_device A _) as [device|e]; [|intros Hr; now apply (Hr e)].
  destruct (chol_force_in_core opt && _); [intros Hr; now eapply Hr|].
  destruct (normalized_upper A upper && _) eqn:Hup; [intros Hr; now eapply Hr|].
  destruct (negb _ && is_cuda A); [intros Hr; now eapply Hr|].
  intros _.
  assert (Hn : normalized (working_tensor A overwrite w) = transpose A1).
  { unfold normalized. now rewrite is_f_contig_working, Hf. }
  assert (Hu : normalized_upper A upper = negb upper).
  { unfold normalized_upper. now rewrite Hf. }
  rewrite Hn, Hu, Hf in *. cbn [negb] in *.
  set (ic := in_core A device opt) in *.
  set (gpu_info := gpu_info_of opt inventory) in *.
  set (w1 := after_copy A overwrite w).
  split.
  - destruct (dispatch_emits (transpose A1) (negb upper) clean true ic device
                gpu_info opt w1) as (evs & E & HP).
    exists evs. rewrite E. unfold w1. rewrite after_copy_trace, <- app_assoc.
    split; [reflexivity|].
    eapply Forall_impl; [exact HP|]. intros e.
    destruct e; simpl; try tauto.
    intros (Hic & ->). split; [reflexivity|].
    rewrite Hic in Hup. simpl in Hup. now rewrite andb_true_r in Hup.
  - intros R HR.
    destruct (dispatch_and_finalize _ _ _ _ _ _ _ _ w1) as [r1 w'] eqn:Em.
    simpl in HR. subst r1.
    apply dispatch_ok in Em as (-> & pre & k & E & Hpre & Hk).
    split; [reflexivity|]. exists pre, k. simpl.
    rewrite E. unfold w1. rewrite after_copy_trace, <- app_assoc.
    split; [reflexivity|]. split.
    + eapply Forall_impl; [exact Hpre|]. now intros e [He _].
    + destruct ic; [subst k; auto|].
      destruct Hk as (devices & ba & ->). auto.
Qed.

(** *** The memory budget *)

Lemma min_finite_le (a : Q) (x : pyfloat) : (min_finite a x <= a)%Q.
Proof.
  destruct x as [q|]; simpl; [|apply Qle_refl].
  destruct (Qle_bool a q) eqn:E; [apply Qle_refl|].
  apply Qlt_le_weak, Qnot_le_lt. intros C.
  apply Qle_bool_iff in C. congruence.
Qed.

(** The usable memory never exceeds the free memory that is not negative. *)
Lemma usable_memory_le_free (opt : FalkonOptions) (g : DeviceInfo) :
  (0 <= free_memory g)%Q -> (usable_memory opt g <= free_memory g)%Q.
Proof.
  intros Hf. unfold usable_memory.
  eapply Qle_trans; [apply min_finite_le|].
  assert (Hm : (0 <= reserved_margin)%Q) by (vm_compute; discriminate).
  revert Hm. generalize reserved_margin. intros m Hm.
  revert Hf. generalize (free_memory g). intros f Hf. lra.
Qed.

Lemma gpu_info_of_same_devices (opt : FalkonOptions)
    (inventory inventory' : list (Z * DeviceInfo)) :
  same_devices inventory inventory' ->
  gpu_info_of opt inventory' = gpu_info_of opt inventory.
Proof.
  unfold gpu_info_of. induction 1 as [|[k g] [k' g'] l l' (Hk & Hi & Hm) _ IH];
    [reflexivity|].
  simpl in *. subst k'. destruct (0 <=? k); [|exact IH].
  simpl. f_equal; [|exact IH].
  unfold set_actual_free_mem, usable_memory. now rewrite Hi, Hm.
Qed.

(** C8. The usable memory [gpu_cholesky] writes into a visible device is
    that of line 188 and, when the free memory of the device is not
    negative, at most this free memory. It is computed anew by every
    call: from inventories of the same devices with the same free memory,
    whatever an earlier call left in [actual_free_mem], [gpu_cholesky]
    derives the same budgets and behaves the same. *)
Theorem usable_memory_is_bounded_and_fresh (opt : FalkonOptions)
    (inventory : list (Z * DeviceInfo)) (g : DeviceInfo) :
  In g (gpu_info_of opt inventory) ->
  (0 <= free_memory g)%Q ->
  actual_free_mem g =
    min_finite ((free_memory g - inject_Z (300 * 2 ^ 20)) * (95 # 100))%Q
               (pyfloat_scale (max_gpu_mem opt) (95 # 100)) /\
  (actual_free_mem g <= free_memory g)%Q /\
  forall inventory',
    same_devices inventory inventory' ->
    gpu_info_of opt inventory' = gpu_info_of opt inventory /\
    forall A upper clean overwrite w,
      gpu_cholesky inventory' A upper clean overwrite opt w =
      gpu_cholesky inventory A upper clean overwrite opt w.
Proof.
  intros Hg Hf. rewrite (gpu_info_of_usable opt inventory g Hg).
  split; [reflexivity|]. split; [now apply usable_memory_le_free|].
  intros inventory' Hs.
  pose proof (gpu_info_of_same_devices opt inventory inventory' Hs) as E.
  split; [exact E|]. intros A upper clean overwrite w.
  unfold gpu_cholesky. now rewrite E.
Qed.

(** *** The choice of the device *)

Lemma max_by_free_mem_ge (l : list DeviceInfo) :
  forall g,
    (actual_free_mem g <= actual_free_mem (max_by_free_mem g l))%Q /\
    Forall (fun x => (actual_free_mem x
                      <= actual_free_mem (max_by_free_mem g l))%Q) l.
Proof.
  induction l as [|x l IH]; intros g; simpl.
  - split; [apply Qle_refl|constructor].
  - destruct (Qle_bool (actual_free_mem x) (actual_free_mem g)) eqn:E.
    + apply Qle_bool_iff in E. destruct (IH g) as [Hg Hl].
      split; [exact Hg|]. constructor; [|exact Hl].
      eapply Qle_trans; eassumption.
    + assert (Hx : (actual_free_mem g <= actual_free_mem x)%Q).
      { apply Qlt_le_weak, Qnot_le_lt. intros C.
        apply Qle_bool_iff in C. congruence. }
      destruct (IH x) as [Hg Hl].
      split; [eapply Qle_trans; eassumption|]. now constructor.
Qed.

(** For a matrix on the host, the device chosen is a visible device with
    the most usable memory; the choice fails, with the [ValueError] of
    [max], exactly when no device is visible. *)
Theorem host_matrix_gets_the_largest_device (A : Tensor)
    (gpu_info : list DeviceInfo) :
  device_index A = None ->
  (forall device,
     choose_device A gpu_info = Ok device ->
     In device gpu_info /\
     forall g, In g gpu_info ->
       (actual_free_mem g <= actual_free_mem device)%Q) /\
  (gpu_info = [] <->
   choose_device A gpu_info
   = Raise (ValueError "max() arg is an empty sequence")) /\
  (gpu_info <> [] -> exists device, choose_device A gpu_info = Ok device).
Proof.
  intros HA. unfold choose_device. rewrite HA.
  destruct gpu_info as [|g0 l].
  - split; [discriminate|]. split; [tauto|]. congruence.
  - split; [|split; [split; discriminate|eauto]].
    intros device [= <-]. split; [apply max_by_free_mem_In|].
    destruct (max_by_free_mem_ge l g0) as [H0 Hl].
    intros g [<-|Hg]; [exact H0|].
    rewrite Forall_forall in Hl. now apply Hl, list_elem_of_In.
Qed.

(** For a matrix on a device, the device chosen is the first visible
    device with the index of the matrix; the choice fails, with the
    [RuntimeError] of line 195, exactly when no visible device has it. *)
Theorem device_matrix_gets_its_own_device (A : Tensor)
    (gpu_info : list DeviceInfo) (index : Z) :
  device_index A = Some index ->
  (forall device,
     choose_device A gpu_info = Ok device ->
     In device gpu_info /\ Id device = index) /\
  (choose_device A gpu_info = Raise (RuntimeError msg_not_recognized)
   <-> forall g, In g gpu_info -> Id g <> index).
Proof.
  intros HA. unfold choose_device. rewrite HA.
  destruct (List.filter (fun d => Id d =? index) gpu_info) as [|d l] eqn:E.
  - split; [discriminate|]. split; [|reflexivity].
    intros _ g Hg Hi.
    assert (Hin : In g (List.filter (fun d => Id d =? index) gpu_info)).
    { apply filter_In. split; [exact Hg|]. now apply Z.eqb_eq. }
    rewrite E in Hin. destruct Hin.
  - assert (Hd : In d (List.filter (fun d => Id d =? index) gpu_info))
      by (rewrite E; now left).
    apply filter_In in Hd as [Hd Hi]. apply Z.eqb_eq in Hi.
    split.
    + intros device [= <-]. auto.
    + split; [discriminate|]. intros Hn. exfalso. exact (Hn d Hd Hi).
Qed.

(** More usable memory never loses the in-core strategy. *)
Lemma can_do_ic_monotone (A : Tensor) (d d' : DeviceInfo) :
  (actual_free_mem d <= actual_free_mem d')%Q ->
  can_do_ic A d = true -> can_do_ic A d' = true.
Proof.
  unfold can_do_ic. rewrite !Qle_bool_iff.
  generalize (inject_Z (needed_ram A)) (actual_free_mem d)
             (actual_free_mem d').
  intros n m m' Hm Hn. lra.
Qed.

(** The greedy choice loses nothing: when a host matrix fits in core on
    some visible device, it fits on the device chosen. *)
Theorem greedy_choice_is_complete (A : Tensor) (gpu_info : list DeviceInfo)
    (device g : DeviceInfo) :
  device_index A = None ->
  choose_device A gpu_info = Ok device ->
  In g gpu_info -> can_do_ic A g = true ->
  can_do_ic A device = true.
Proof.
  intros HA Hd Hg Hic.
  revert Hd. unfold choose_device. rewrite HA.
  destruct gpu_info as [|g0 l]; [discriminate|]. intros [= <-].
  destruct (max_by_free_mem_ge l g0) as [H0 Hl].
  eapply can_do_ic_monotone; [|exact Hic].
  destruct Hg as [<-|Hg]; [exact H0|].
  rewrite Forall_forall in Hl. now apply Hl, list_elem_of_In.
Qed.

(** *** The budget and the cap *)

Lemma min_finite_le_cap (a q : Q) : (min_finite a (Finite q) <= q)%Q.
Proof.
  simpl. destruct (Qle_bool a q) eqn:E; [|apply Qle_refl].
  now apply Qle_bool_iff.
Qed.

(** The cap of the options is respected: with [max_gpu_mem] finite, the
    usable memory written into every visible device is at most 0.95 times
    the cap, and at most 0.95 times the free memory less 300 MiB. *)
Theorem usable_memory_respects_the_cap (opt : FalkonOptions)
    (inventory : list (Z * DeviceInfo)) (cap : Q) (g : DeviceInfo) :
  max_gpu_mem opt = Finite cap ->
  In g (gpu_info_of opt inventory) ->
  (actual_free_mem g <= cap * (95 # 100))%Q /\
  (actual_free_mem g
   <= (free_memory g - inject_Z (300 * 2 ^ 20)) * (95 # 100))%Q.
Proof.
  intros Hcap Hg. rewrite (gpu_info_of_usable opt inventory g Hg).
  unfold usable_memory. rewrite Hcap. simpl pyfloat_scale.
  split; [apply min_finite_le_cap|apply min_finite_le].
Qed.

(** A device with less than 300 MiB free has a negative budget, and no
    matrix, on the host or on a device, is factorised in core on it. *)
Theorem low_memory_device_is_never_in_core (opt : FalkonOptions)
    (g : DeviceInfo) (A : Tensor) :
  (free_memory g < inject_Z (300 * 2 ^ 20))%Q ->
  0 <= fst (shape A) -> 0 <= snd (shape A) ->
  (usable_memory opt g < 0)%Q /\
  in_core A (set_actual_free_mem opt g) opt = false.
Proof.
  intros Hf H0 H1.
  assert (Hu : (usable_memory opt g < 0)%Q).
  { eapply Qle_lt_trans; [apply min_finite_le|].
    fold reserved_margin in Hf |- *.
    revert Hf. generalize reserved_margin (free_memory g). intros m f Hf.
    lra. }
  split; [exact Hu|].
  unfold in_core, can_do_ic. simpl actual_free_mem.
  destruct (Qle_bool _ _) eqn:E; [|reflexivity].
  apply Qle_bool_iff in E. exfalso.
  assert (Hn : (0 <= inject_Z (needed_ram A))%Q).
  { change 0%Q with (inject_Z 0). rewrite <- Zle_Qle.
    unfold needed_ram. destruct (is_cuda A); [lia|].
    destruct (tdtype A); simpl; nia. }
  revert Hu E Hn.
  generalize (usable_memory opt g) (inject_Z (needed_ram A)).
  intros u n Hu E Hn. lra.
Qed.

(** *** What a call does, whatever the layout *)

(** After the copy, either nothing more is called, or a device was
    chosen, none of the three checks of lines 199-221 fired, and every
    call is one of the stage. *)
Lemma gpu_cholesky_events (inventory : list (Z * DeviceInfo)) (A : Tensor)
    (upper clean overwrite : bool) (opt : FalkonOptions) (w : world) :
  let r := gpu_cholesky inventory A upper clean overwrite opt w in
  let A2 := normalized (working_tensor A overwrite w) in
  let u2 := normalized_upper A upper in
  exists evs,
    trace (snd r) = trace w ++ copy_events A overwrite w ++ evs /\
    (evs = [] \/
     exists device,
       choose_device A (gpu_info_of opt inventory) = Ok device /\
       chol_force_in_core opt && negb (in_core A device opt) = false /\
       u2 && negb (in_core A device opt) = false /\
       negb (in_core A device opt) && is_cuda A = false /\
       Forall (stage_event A2 u2 clean (in_core A device opt) device) evs).
Proof.
  intros r A2 u2. subst r. rewrite gpu_cholesky_run. cbv zeta.
  assert (Hnone : exists evs,
             trace (after_copy A overwrite w)
             = trace w ++ copy_events A overwrite w ++ evs /\
             (evs = [] \/
              exists device,
                choose_device A (gpu_info_of opt inventory) = Ok device /\
                chol_force_in_core opt && negb (in_core A device opt) = false /\
                u2 && negb (in_core A device opt) = false /\
                negb (in_core A device opt) && is_cuda A = false /\
                Forall (stage_event A2 u2 clean (in_core A device opt) device)
                       evs)).
  { exists []. rewrite app_nil_r. split; [apply after_copy_trace|now left]. }
  destruct (choose_device A _) as [device|e] eqn:Hd; [|exact Hnone].
  destruct (chol_force_in_core opt && _) eqn:G1; [exact Hnone|].
  fold u2. destruct (u2 && _) eqn:G2; [exact Hnone|].
  destruct (negb _ && is_cuda A) eqn:G3; [exact Hnone|].
  fold A2.
  match goal with
  | |- context [dispatch_and_finalize ?a ?u ?c ?t ?i ?d ?g ?o ?w1] =>
      destruct (dispatch_emits a u c t i d g o w1) as (evs & E & HP)
  end.
  exists evs. rewrite E, after_copy_trace, <- app_assoc.
  split; [reflexivity|]. right. exists device. auto.
Qed.

Lemma copy_events_no_kernel (A : Tensor) (overwrite : bool) (w : world) e :
  In e (copy_events A overwrite w) -> is_kernel e = false.
Proof.
  unfold copy_events. destruct overwrite; [intros []|].
  intros [<-|[]]. reflexivity.
Qed.

(** The tensor a successful call returns is the tensor it worked on, in
    the layout the caller gave: the input itself when [overwrite] holds,
    the copy when it does not, whether or not the layout was normalised
    through a transposition. *)
Theorem result_is_the_working_tensor (inventory : list (Z * DeviceInfo))
    (A : Tensor) (upper clean overwrite : bool) (opt : FalkonOptions)
    (w : world) (R : Tensor) :
  fst (gpu_cholesky inventory A upper clean overwrite opt w) = Ok R ->
  R = working_tensor A overwrite w /\
  shape R = shape A /\ stride R = stride A /\
  device_index R = device_index A /\
  (overwrite = true -> R = A).
Proof.
  rewrite gpu_cholesky_run. cbv zeta.
  destruct (choose_device A _) as [device|e]; [|discriminate].
  destruct (chol_force_in_core opt && _); [discriminate|].
  destruct (normalized_upper A upper && _); [discriminate|].
  destruct (negb _ && is_cuda A); [discriminate|].
  intros HR.
  destruct (dispatch_and_finalize _ _ _ _ _ _ _ _ _) as [r1 w'] eqn:Em.
  simpl in HR. subst r1. apply dispatch_ok in Em as [-> _].
  assert (E : (if negb (is_f_contig A)
               then transpose (normalized (working_tensor A overwrite w))
               else normalized (working_tensor A overwrite w))
              = working_tensor A overwrite w).
  { unfold normalized. rewrite is_f_contig_working.
    destruct (is_f_contig A); simpl; [reflexivity|].
    apply transpose_involutive. }
  rewrite E. split; [reflexivity|].
  destruct overwrite; simpl; repeat split; try reflexivity; discriminate.
Qed.

Lemma quiet_is_not_a_write (e : event) :
  is_kernel e = false /\ touches e = [] ->
  is_kernel e || is_zero_triang e = false.
Proof. destruct e; simpl; intros [Hk Ht]; congruence. Qed.

Lemma filter_quiet (p : event -> bool) (l : list event) :
  Forall (fun e => p e = false) l -> List.filter p l = [].
Proof.
  induction 1 as [|e l He _ IH]; simpl; [reflexivity|]. now rewrite He.
Qed.

(** The writes of a successful call: one factorisation kernel on the
    normalised tensor, then, exactly when [clean] holds, one zeroing of
    the other triangle of the same tensor; nothing else is factorised or
    zeroed. *)
Theorem successful_call_writes_once (inventory : list (Z * DeviceInfo))
    (A : Tensor) (upper clean overwrite : bool) (opt : FalkonOptions)
    (w : world) (R : Tensor) :
  let r := gpu_cholesky inventory A upper clean overwrite opt w in
  let A2 := normalized (working_tensor A overwrite w) in
  let u2 := normalized_upper A upper in
  fst r = Ok R ->
  exists evs k,
    trace (snd r) = trace w ++ evs /\
    List.filter (fun e => is_kernel e || is_zero_triang e) evs
    = k :: (if clean then [EvZeroTriang A2 (negb u2)] else []) /\
    is_kernel k = true /\ touches k = [data A2].
Proof.
  intros r A2 u2. subst r. rewrite gpu_cholesky_run. cbv zeta.
  destruct (choose_device A _) as [device|e]; [|discriminate].
  destruct (chol_force_in_core opt && _); [discriminate|].
  destruct (normalized_upper A upper && _); [discriminate|].
  destruct (negb _ && is_cuda A); [discriminate|].
  fold A2 u2. intros HR.
  destruct (dispatch_and_finalize _ _ _ _ _ _ _ _ _) as [r1 w'] eqn:Em.
  simpl in HR. subst r1.
  apply dispatch_ok in Em as (_ & pre & k & E & Hpre & Hk).
  assert (Hkk : is_kernel k = true /\ touches k = [data A2]).
  { destruct (in_core A device opt); [subst k; auto|].
    destruct Hk as (devices & ba & ->). auto. }
  exists (copy_events A overwrite w ++ pre
          ++ k :: (if clean then [EvZeroTriang A2 (negb u2)] else [])), k.
  simpl. rewrite E, after_copy_trace, <- app_assoc.
  split; [reflexivity|]. split; [|exact Hkk].
  rewrite !List.filter_app.
  rewrite (filter_quiet _ (copy_events A overwrite w)).
  2:{ apply Forall_forall. intros e He. apply list_elem_of_In in He.
      unfold copy_events in He. destruct overwrite; [destruct He|].
      destruct He as [<-|[]]. reflexivity. }
  rewrite (filter_quiet _ pre).
  2:{ eapply Forall_impl; [exact Hpre|]. intros e.
      apply quiet_is_not_a_write. }
  simpl. destruct Hkk as [-> _]. simpl.
  destruct clean; reflexivity.
Qed.

(** A call writes to one buffer at most: every buffer but the one the
    working tensor views holds after the call what it held before,
    whether the call returns or raises. *)
Theorem call_writes_one_buffer (inventory : list (Z * DeviceInfo))
    (A : Tensor) (upper clean overwrite : bool) (opt : FalkonOptions)
    (w : world) (l : positive) :
  l <> data (working_tensor A overwrite w) ->
  store (snd (gpu_cholesky inventory A upper clean overwrite opt w)) !! l
  = store w !! l.
Proof.
  intros Hl.
  assert (Hc : store (after_copy A overwrite w) !! l = store w !! l).
  { unfold after_copy. destruct overwrite; [reflexivity|].
    unfold copy_same_stride. simpl in *.
    destruct (store w !! data A); [|reflexivity].
    now rewrite lookup_insert_ne by congruence. }
  rewrite gpu_cholesky_run. cbv zeta.
  destruct (choose_device A _) as [device|e]; [|exact Hc].
  destruct (chol_force_in_core opt && _); [exact Hc|].
  destruct (normalized_upper A upper && _); [exact Hc|].
  destruct (negb _ && is_cuda A); [exact Hc|].
  rewrite dispatch_frames; [exact Hc|].
  now rewrite data_normalized.
Qed.

(** The out-of-core kernel is only ever called on a tensor on the host,
    for the lower triangle after normalisation, with the in-core strategy
    not selected and not forced. *)
Theorem out_of_core_kernel_call (inventory : list (Z * DeviceInfo))
    (A : Tensor) (upper clean overwrite : bool) (opt : FalkonOptions)
    (w : world) (evs : list event) devices ba (A' : Tensor) :
  trace (snd (gpu_cholesky inventory A upper clean overwrite opt w))
    = trace w ++ evs ->
  In (EvParallelPotrf devices ba A') evs ->
  A' = normalized (working_tensor A overwrite w) /\
  is_cuda A' = false /\
  normalized_upper A upper = false /\
  chol_force_in_core opt = false /\
  exists device,
    choose_device A (gpu_info_of opt inventory) = Ok device /\
    in_core A device opt = false.
Proof.
  intros Htr Hin.
  destruct (gpu_cholesky_events inventory A upper clean overwrite opt w)
    as (evs' & E & Hev).
  rewrite E in Htr. apply app_inv_head in Htr. subst evs.
  apply in_app_or in Hin as [Hin|Hin].
  { apply copy_events_no_kernel in Hin. discriminate. }
  destruct Hev as [->|(device & Hd & G1 & G2 & G3 & HP)]; [destruct Hin|].
  rewrite Forall_forall in HP.
  apply list_elem_of_In, HP in Hin. destruct Hin as [Hic ->].
  rewrite Hic in *. simpl in *. rewrite andb_true_r in G1, G2.
  split; [reflexivity|].
  rewrite is_cuda_normalized, is_cuda_working. eauto 10.
Qed.

(** The in-core kernel is only ever called with [chol_force_ooc] not set,
    on the normalised tensor, for the normalised triangle and on the
    device chosen. *)
Theorem in_core_kernel_call (inventory : list (Z * DeviceInfo))
    (A : Tensor) (upper clean overwrite : bool) (opt : FalkonOptions)
    (w : world) (evs : list event) (A' : Tensor) (u : bool) (n d : Z) :
  trace (snd (gpu_cholesky inventory A upper clean overwrite opt w))
    = trace w ++ evs ->
  In (EvCusolverPotrf A' u n d) evs ->
  A' = normalized (working_tensor A overwrite w) /\
  u = normalized_upper A upper /\
  chol_force_ooc opt = false /\
  exists device,
    choose_device A (gpu_info_of opt inventory) = Ok device /\
    d = Id device /\ can_do_ic A device = true.
Proof.
  intros Htr Hin.
  destruct (gpu_cholesky_events inventory A upper clean overwrite opt w)
    as (evs' & E & Hev).
  rewrite E in Htr. apply app_inv_head in Htr. subst evs.
  apply in_app_or in Hin as [Hin|Hin].
  { apply copy_events_no_kernel in Hin. discriminate. }
  destruct Hev as [->|(device & Hd & G1 & G2 & G3 & HP)]; [destruct Hin|].
  rewrite Forall_forall in HP.
  apply list_elem_of_In, HP in Hin. destruct Hin as (Hic & -> & -> & ->).
  unfold in_core in Hic. apply andb_true_iff in Hic as [Hc Ho].
  apply negb_true_iff in Ho. eauto 10.
Qed.

(** *** What the kernels are given, and what is left in the buffer *)

Lemma dispatch_emits_column_major (A : Tensor)
    (upper clean transposed ic : bool) (device : DeviceInfo)
    (gpu_info : list DeviceInfo) (opt : FalkonOptions) :
  emits (fun e => forall A' u n d,
           e = EvCusolverPotrf A' u n d ->
           is_f_contig A' = true /\ n = fst (shape A'))
        (dispatch_and_finalize A upper clean transposed ic device gpu_info opt).
Proof.
  unfold dispatch_and_finalize.
  apply emits_bind; [|intros _; apply emits_bind; [|auto with stages]].
  - destruct ic.
    + apply emits_bind.
      { destruct (debug opt); [apply emits_emit; discriminate|auto with stages]. }
      intros _. unfold _ic_cholesky.
      destruct (is_f_contig A) eqn:Hf; simpl; [|auto with stages].
      apply emits_bind.
      { apply emits_emit. intros A' u n d [= <- _ <- _]. auto. }
      intros _. apply emits_bind; [|auto with stages].
      destruct (is_cuda A); auto with stages.
    + apply emits_bind.
      { destruct (debug opt); [apply emits_emit; discriminate|auto with stages]. }
      intros _. unfold _parallel_potrf_runner.
      destruct (map actual_free_mem gpu_info); [auto with stages|].
      apply emits_bind; [auto with stages|intros mbs].
      apply emits_bind.
      { apply emits_for_each. intros g. apply emits_emit. discriminate. }
      intros _. apply emits_bind; [apply emits_emit; discriminate|intros _].
      apply emits_bind; auto with stages.
  - destruct clean; [|auto with stages].
    unfold zero_triang_op.
    apply emits_bind; [apply emits_emit; discriminate|auto with stages].
Qed.

(** The in-core kernel is only ever given a column-major tensor, with
    [n] its first dimension. *)
Theorem in_core_kernel_gets_column_major (inventory : list (Z * DeviceInfo))
    (A : Tensor) (upper clean overwrite : bool) (opt : FalkonOptions)
    (w : world) (evs : list event) (A' : Tensor) (u : bool) (n d : Z) :
  trace (snd (gpu_cholesky inventory A upper clean overwrite opt w))
    = trace w ++ evs ->
  In (EvCusolverPotrf A' u n d) evs ->
  is_f_contig A' = true /\ n = fst (shape A').
Proof.
  rewrite gpu_cholesky_run. cbv zeta.
  assert (Hnone : trace (after_copy A overwrite w) = trace w ++ evs ->
                  In (EvCusolverPotrf A' u n d) evs ->
                  is_f_contig A' = true /\ n = fst (shape A')).
  { rewrite after_copy_trace. intros E Hin. apply app_inv_head in E.
    subst evs. apply copy_events_no_kernel in Hin. discriminate. }
  destruct (choose_device A _) as [device|e]; [|exact Hnone].
  destruct (chol_force_in_core opt && _); [exact Hnone|].
  destruct (normalized_upper A upper && _); [exact Hnone|].
  destruct (negb _ && is_cuda A); [exact Hnone|].
  match goal with
  | |- context [dispatch_and_finalize ?a ?u ?c ?t ?i ?d ?g ?o ?w1] =>
      destruct (dispatch_emits_column_major a u c t i d g o w1)
        as (evs' & E & HP)
  end.
  rewrite E, after_copy_trace, <- app_assoc. intros E' Hin.
  apply app_inv_head in E'. subst evs.
  apply in_app_or in Hin as [Hin|Hin].
  { apply copy_events_no_kernel in Hin. discriminate. }
  rewrite Forall_forall in HP.
  apply list_elem_of_In in Hin. exact (HP _ Hin _ _ _ _ eq_refl).
Qed.

Lemma log_then {X : Type} (opt : FalkonOptions) (msg : string)
    (m : M world X) (w : world) :
  ((if debug opt then emit (EvLogInfo msg) else ret tt) ;;; m) w
  = m (mkWorld (store w)
               (trace w ++ (if debug opt then [EvLogInfo msg] else []))).
Proof.
  unfold bind. destruct (debug opt); [reflexivity|].
  simpl. rewrite app_nil_r. now destruct w.
Qed.

(** [_ic_cholesky] on a column-major tensor whose buffer holds [c]. *)
Lemma ic_cholesky_run (A : Tensor) (upper : bool) (d : Z) (w : world)
    (c : contents) :
  is_f_contig A = true ->
  store w !! data A = Some c ->
  _ic_cholesky A upper d w =
  let out := cusolver_potrf A upper (fst (shape A)) c in
  let tr := trace w ++ [EvCusolverPotrf A upper (fst (shape A)) d] in
  match snd out with
  | None => (Ok A, mkWorld (<[data A := fst out]> (store w)) tr)
  | Some e =>
      (Raise e,
       mkWorld (if is_cuda A then <[data A := fst out]> (store w)
                else store w) tr)
  end.
Proof.
  intros Hf Hc. unfold _ic_cholesky. rewrite Hf. cbn [negb].
  cbv beta iota zeta. rewrite bind_run. unfold emit at 1. cbv beta iota. rewrite bind_run.
  destruct (is_cuda A); unfold in_place, staged; cbn [store trace];
    rewrite Hc;
    destruct (cusolver_potrf A upper (fst (shape A)) c) as [c' [e|]];
    reflexivity.
Qed.

Lemma zero_triang_op_store (A : Tensor) (upper : bool) (w : world)
    (c : contents) :
  store w !! data A = Some c ->
  zero_triang_op A upper w
  = (Ok tt, mkWorld (<[data A := zero_triang A upper c]> (store w))
                    (trace w ++ [EvZeroTriang A upper])).
Proof.
  intros Hc. unfold zero_triang_op. rewrite bind_run. unfold emit.
  cbv beta iota. unfold in_place. cbn [store trace]. now rewrite Hc.
Qed.

Lemma after_copy_lookup (A : Tensor) (overwrite : bool) (w : world)
    (c : contents) :
  store w !! data A = Some c ->
  store (after_copy A overwrite w) !! data (working_tensor A overwrite w)
  = Some c.
Proof.
  intros Hc. unfold after_copy, working_tensor.
  destruct overwrite; [exact Hc|].
  unfold copy_same_stride. simpl. rewrite Hc. apply lookup_insert_eq.
Qed.

Lemma is_f_contig_normalized_working (A : Tensor) (overwrite : bool)
    (w : world) :
  is_f_contig (normalized (working_tensor A overwrite w))
  = is_f_contig (normalized A).
Proof.
  unfold normalized. rewrite is_f_contig_working.
  destruct (is_f_contig A); [apply is_f_contig_working|].
  now destruct overwrite.
Qed.

(** The run of lines 223-240 in core, on a column-major tensor whose
    buffer holds [c]. *)
Lemma dispatch_in_core_run (A : Tensor) (upper clean transposed : bool)
    (device : DeviceInfo) (gpu_info : list DeviceInfo) (opt : FalkonOptions)
    (w : world) (c : contents) :
  is_f_contig A = true ->
  store w !! data A = Some c ->
  let r := dispatch_and_finalize A upper clean transposed true device
             gpu_info opt w in
  let out := cusolver_potrf A upper (fst (shape A)) c in
  match snd out with
  | None =>
      fst r = Ok (if transposed then transpose A else A) /\
      store (snd r) !! data A
      = Some (if clean then zero_triang A (negb upper) (fst out)
              else fst out)
  | Some e =>
      fst r = Raise e /\
      store (snd r) !! data A = Some (if is_cuda A then fst out else c) /\
      Forall (fun ev => is_zero_triang ev = false)
             (drop (length (trace w)) (trace (snd r)))
  end.
Proof.
  intros Hf Hc r out. subst r. unfold dispatch_and_finalize.
  rewrite bind_run, log_then.
  rewrite (ic_cholesky_run A upper (Id device)
             (mkWorld (store w)
                (trace w ++ (if debug opt
                             then [EvLogInfo "Using in-core POTRF"]
                             else [])))
             c Hf Hc).
  cbv zeta.
  fold out. destruct (snd out) as [e|].
  - cbv iota. cbn [fst snd store trace]. split; [reflexivity|]. split.
    + destruct (is_cuda A); [apply lookup_insert_eq|exact Hc].
    + rewrite <- app_assoc, drop_app_length.
      apply Forall_app. split; [|now repeat constructor].
      destruct (debug opt); now repeat constructor.
  - cbv iota. rewrite bind_run. destruct clean.
    + rewrite (zero_triang_op_store _ _ _ (fst out))
        by apply lookup_insert_eq.
      cbn [fst snd store trace]. split; [reflexivity|].
      apply lookup_insert_eq.
    + cbn [fst snd store trace]. split; [reflexivity|].
      apply lookup_insert_eq.
Qed.

(** In core, a call whose kernel succeeds returns the working tensor, and
    leaves in its buffer the output of the kernel on what the input held,
    with the other triangle zeroed when [clean] holds. *)
Theorem in_core_success_contents (inventory : list (Z * DeviceInfo))
    (A : Tensor) (upper clean overwrite : bool) (opt : FalkonOptions)
    (w : world) (device : DeviceInfo) (c : contents) :
  let r := gpu_cholesky inventory A upper clean overwrite opt w in
  let A1 := working_tensor A overwrite w in
  let A2 := normalized A1 in
  let u2 := normalized_upper A upper in
  let out := cusolver_potrf A2 u2 (fst (shape A2)) c in
  choose_device A (gpu_info_of opt inventory) = Ok device ->
  in_core A device opt = true ->
  is_f_contig (normalized A) = true ->
  store w !! data A = Some c ->
  snd out = None ->
  fst r = Ok A1 /\
  store (snd r) !! data A1
  = Some (if clean then zero_triang A2 (negb u2) (fst out) else fst out).
Proof.
  intros r A1 A2 u2 out Hd Hic Hf Hc Hout. subst r.
  rewrite gpu_cholesky_run, Hd. cbv zeta. rewrite Hic.
  rewrite !andb_false_r. cbn [negb]. rewrite andb_false_l.
  fold A1 A2 u2.
  assert (Hf2 : is_f_contig A2 = true)
    by (unfold A2, A1; now rewrite is_f_contig_normalized_working).
  assert (Hc2 : store (after_copy A overwrite w) !! data A2 = Some c).
  { unfold A2. rewrite data_normalized. now apply after_copy_lookup. }
  pose proof (dispatch_in_core_run A2 u2 clean (negb (is_f_contig A)) device
                (gpu_info_of opt inventory) opt _ c Hf2 Hc2) as Hrun.
  cbv zeta in Hrun. fold out in Hrun. rewrite Hout in Hrun.
  destruct Hrun as [Hr Hs]. rewrite Hr.
  unfold A2 in Hs at 1. rewrite data_normalized in Hs.
  split; [|exact Hs]. f_equal.
  unfold A2, normalized. unfold A1. rewrite is_f_contig_working.
  destruct (is_f_contig A); simpl; [reflexivity|apply transpose_involutive].
Qed.

(** In core, a call whose kernel fails raises what the kernel raised and
    zeroes nothing; a matrix on the host is left as it was (the result is
    copied back only after the kernel), a matrix on a device holds what
    the kernel left. *)
Theorem in_core_failure_contents (inventory : list (Z * DeviceInfo))
    (A : Tensor) (upper clean overwrite : bool) (opt : FalkonOptions)
    (w : world) (device : DeviceInfo) (c : contents) (e : exn) :
  let r := gpu_cholesky inventory A upper clean overwrite opt w in
  let A1 := working_tensor A overwrite w in
  let A2 := normalized A1 in
  let u2 := normalized_upper A upper in
  let out := cusolver_potrf A2 u2 (fst (shape A2)) c in
  choose_device A (gpu_info_of opt inventory) = Ok device ->
  in_core A device opt = true ->
  is_f_contig (normalized A) = true ->
  store w !! data A = Some c ->
  snd out = Some e ->
  fst r = Raise e /\
  store (snd r) !! data A1 = Some (if is_cuda A then fst out else c) /\
  Forall (fun ev => is_zero_triang ev = false)
         (drop (length (trace (after_copy A overwrite w))) (trace (snd r))).
Proof.
  intros r A1 A2 u2 out Hd Hic Hf Hc Hout. subst r.
  rewrite gpu_cholesky_run, Hd. cbv zeta. rewrite Hic.
  rewrite !andb_false_r. cbn [negb]. rewrite andb_false_l.
  fold A1 A2 u2.
  assert (Hf2 : is_f_contig A2 = true)
    by (unfold A2, A1; now rewrite is_f_contig_normalized_working).
  assert (Hc2 : store (after_copy A overwrite w) !! data A2 = Some c).
  { unfold A2. rewrite data_normalized. now apply after_copy_lookup. }
  pose proof (dispatch_in_core_run A2 u2 clean (negb (is_f_contig A)) device
                (gpu_info_of opt inventory) opt _ c Hf2 Hc2) as Hrun.
  cbv zeta in Hrun. fold out in Hrun. rewrite Hout in Hrun.
  destruct Hrun as (Hr & Hs & Hz).
  assert (Hcu : is_cuda A2 = is_cuda A)
    by (unfold A2, A1; now rewrite is_cuda_normalized, is_cuda_working).
  assert (Hda : data A2 = data A1) by apply data_normalized.
  rewrite Hcu, Hda in Hs. auto.
Qed.

(** In core, an input that is column-major neither as it is nor
    transposed is rejected by the check of line 45, before any kernel is
    called and with no buffer written but the copy. *)
Theorem in_core_rejects_strided_input (inventory : list (Z * DeviceInfo))
    (A : Tensor) (upper clean overwrite : bool) (opt : FalkonOptions)
    (w : world) (device : DeviceInfo) :
  let r := gpu_cholesky inventory A upper clean overwrite opt w in
  choose_device A (gpu_info_of opt inventory) = Ok device ->
  in_core A device opt = true ->
  is_f_contig A = false ->
  is_f_contig (transpose A) = false ->
  fst r = Raise (RuntimeError "Cholesky input must be F-contiguous") /\
  store (snd r) = store (after_copy A overwrite w) /\
  trace (snd r)
  = trace w ++ copy_events A overwrite w
      ++ (if debug opt then [EvLogInfo "Using in-core POTRF"] else []).
Proof.
  intros r Hd Hic Hf Hft. subst r.
  rewrite gpu_cholesky_run, Hd. cbv zeta. rewrite Hic.
  rewrite !andb_false_r. cbn [negb]. rewrite andb_false_l.
  assert (Hf2 : is_f_contig (normalized (working_tensor A overwrite w))
                = false).
  { rewrite is_f_contig_normalized_working. unfold normalized.
    now rewrite Hf. }
  unfold dispatch_and_finalize. rewrite bind_run, log_then.
  unfold _ic_cholesky. rewrite Hf2. simpl.
  rewrite after_copy_trace, <- app_assoc. auto.
Qed.

(** *** The out-of-core runner *)

(** [_parallel_potrf_runner] once the planner has returned [mbs], on a
    tensor whose buffer holds [c]. *)
Lemma runner_run (A : Tensor) (opt : FalkonOptions)
    (g0 : DeviceInfo) (gs : list DeviceInfo) (w : world) (c : contents)
    (mbs : Z) :
  let gpu_info := g0 :: gs in
  let num_gpus := Z.of_nat (length gpu_info) in
  let N := fst (shape A) in
  let avail_ram :=
    (min_from (actual_free_mem g0) (map actual_free_mem gs)
     / inject_Z (sizeof_dtype (tdtype A)))%Q in
  let ba := fst (allocate_blocks num_gpus
                   (calc_block_sizes mbs num_gpus N
                      (chol_par_blk_multiplier opt))) in
  let out := parallel_potrf (range num_gpus) ba A c in
  BlockSize.max_block_size N avail_ram = Ok mbs ->
  store w !! data A = Some c ->
  _parallel_potrf_runner A opt gpu_info w =
  (match snd out with
   | None => Ok A
   | Some e => Raise e
   end,
   mkWorld (<[data A := fst out]> (store w))
           (trace w ++ map EvSynchronize (range num_gpus)
              ++ [EvParallelPotrf (range num_gpus) ba A])).
Proof.
  intros gpu_info num_gpus N avail_ram ba out Hb Hc.
  unfold _parallel_potrf_runner.
  change (map actual_free_mem gpu_info)
    with (actual_free_mem g0 :: map actual_free_mem gs).
  cbv beta iota zeta. fold gpu_info num_gpus N avail_ram.
  rewrite bind_run. unfold lift. rewrite Hb. cbv beta iota.
  fold ba.
  rewrite bind_run, for_each_emit. cbv beta iota.
  rewrite bind_run. unfold emit at 1. cbv beta iota. cbn [trace store].
  rewrite bind_run. unfold in_place. cbn [trace store]. rewrite Hc.
  fold out. destruct out as [c' [e|]]; simpl; now rewrite <- app_assoc.
Qed.

(** The runner with a plan: it synchronises the devices in order, calls
    the kernel once with every device and the allocation of the plan, and
    writes what the kernel left into the buffer of [A], also when the
    kernel raises. *)
Theorem runner_runs_the_plan (A : Tensor) (opt : FalkonOptions)
    (g0 : DeviceInfo) (gs : list DeviceInfo) (w : world) (c : contents)
    (mbs : Z) :
  let gpu_info := g0 :: gs in
  let num_gpus := Z.of_nat (length gpu_info) in
  let N := fst (shape A) in
  let avail_ram :=
    (min_from (actual_free_mem g0) (map actual_free_mem gs)
     / inject_Z (sizeof_dtype (tdtype A)))%Q in
  let ba := fst (allocate_blocks num_gpus
                   (calc_block_sizes mbs num_gpus N
                      (chol_par_blk_multiplier opt))) in
  let out := parallel_potrf (range num_gpus) ba A c in
  BlockSize.max_block_size N avail_ram = Ok mbs ->
  store w !! data A = Some c ->
  _parallel_potrf_runner A opt gpu_info w =
  (match snd out with
   | None => Ok A
   | Some e => Raise e
   end,
   mkWorld (<[data A := fst out]> (store w))
           (trace w ++ map EvSynchronize (range num_gpus)
              ++ [EvParallelPotrf (range num_gpus) ba A])).
Proof. exact (runner_run A opt g0 gs w c mbs). Qed.


(** With no visible device the runner raises the [ValueError] of [min]
    and does nothing else. *)
Lemma runner_no_device (A : Tensor) (opt : FalkonOptions) (w : world) :
  _parallel_potrf_runner A opt [] w
  = (Raise (ValueError "min() arg is an empty sequence"), w).
Proof. reflexivity. Qed.

(** Out of core, for a host matrix that does not fit in core and whose
    normalised triangle is lower: the call returns the working tensor
    with, in its buffer, the output of the out-of-core kernel on what the
    input held, the upper triangle zeroed when [clean] holds; when the
    kernel raises, the call raises the same and zeroes nothing. *)
Theorem out_of_core_contents (inventory : list (Z * DeviceInfo))
    (A : Tensor) (upper clean overwrite : bool) (opt : FalkonOptions)
    (w : world) (device g0 : DeviceInfo) (gs : list DeviceInfo)
    (c : contents) (mbs : Z) :
  let r := gpu_cholesky inventory A upper clean overwrite opt w in
  let A1 := working_tensor A overwrite w in
  let A2 := normalized A1 in
  let num_gpus := Z.of_nat (length (g0 :: gs)) in
  let avail_ram :=
    (min_from (actual_free_mem g0) (map actual_free_mem gs)
     / inject_Z (sizeof_dtype (tdtype A)))%Q in
  let ba := fst (allocate_blocks num_gpus
                   (calc_block_sizes mbs num_gpus (fst (shape A2))
                      (chol_par_blk_multiplier opt))) in
  let out := parallel_potrf (range num_gpus) ba A2 c in
  gpu_info_of opt inventory = g0 :: gs ->
  choose_device A (g0 :: gs) = Ok device ->
  in_core A device opt = false ->
  chol_force_in_core opt = false ->
  normalized_upper A upper = false ->
  is_cuda A = false ->
  BlockSize.max_block_size (fst (shape A2)) avail_ram = Ok mbs ->
  store w !! data A = Some c ->
  match snd out with
  | None =>
      fst r = Ok A1 /\
      store (snd r) !! data A1
      = Some (if clean then zero_triang A2 true (fst out) else fst out)
  | Some e =>
      fst r = Raise e /\ store (snd r) !! data A1 = Some (fst out)
  end.
Proof.
  intros r A1 A2 num_gpus avail_ram ba out Hgi Hd Hic Hfi Hu Hcu Hb Hc.
  subst r. rewrite gpu_cholesky_run, Hgi, Hd. cbv zeta.
  rewrite Hic, Hfi, Hu, Hcu. cbn [negb andb].
  fold A1 A2.
  assert (Hc2 : store (after_copy A overwrite w) !! data A2 = Some c).
  { unfold A2. rewrite data_normalized. now apply after_copy_lookup. }
  assert (Hda : data A2 = data A1) by apply data_normalized.
  assert (Hdt : tdtype A2 = tdtype A).
  { unfold A2, A1, normalized, working_tensor.
    destruct (is_f_contig _); now destruct overwrite. }
  assert (HR : (if negb (is_f_contig A) then transpose A2 else A2) = A1).
  { unfold A2, normalized. unfold A1. rewrite is_f_contig_working.
    destruct (is_f_contig A); simpl; [reflexivity|apply transpose_involutive]. }
  unfold dispatch_and_finalize. rewrite bind_run, log_then.
  assert (Hb' : BlockSize.max_block_size (fst (shape A2))
                  (min_from (actual_free_mem g0) (map actual_free_mem gs)
                   / inject_Z (sizeof_dtype (tdtype A2))) = Ok mbs)
    by (rewrite Hdt; exact Hb).
  rewrite (runner_run A2 opt g0 gs
             (mkWorld (store (after_copy A overwrite w))
                (trace (after_copy A overwrite w)
                 ++ (if debug opt
                     then [EvLogInfo "Using parallel POTRF"]
                     else [])))
             c mbs Hb' Hc2).
  fold num_gpus ba out.
  destruct (snd out) as [e|].
  - cbn [fst snd store]. rewrite <- Hda. split; [reflexivity|].
    apply lookup_insert_eq.
  - rewrite bind_run. destruct clean.
    + rewrite (zero_triang_op_store _ _ _ (fst out))
        by apply lookup_insert_eq.
      cbn [fst snd store negb]. rewrite HR, <- Hda.
      split; [reflexivity|]. apply lookup_insert_eq.
    + cbn [fst snd store]. rewrite HR, <- Hda.
      split; [reflexivity|]. apply lookup_insert_eq.
Qed.

End OrchestratorFacts.

(** ** The theorems on examples

    A 4x4 matrix of doubles in buffer 1, which holds 7, and one device
    with 8 GiB free. With no cap on the memory the matrix fits in core;
    with a cap of 100 bytes it does not. *)

(** C2 on the column-major host matrix: 128 bytes are needed, in core. *)
Lemma in_core_iff_memory_suffices_witness :
  let opt := demo_options false false in
  let A := demo_tensor 1 true None in
  let device := set_actual_free_mem opt (snd (demo_device 0 8)) in
  (shape A = (4, 4) /\
   choose_device A (gpu_info_of opt [demo_device 0 8]) = Ok device) /\
  (in_core A device opt = true <->
   chol_force_ooc opt = false /\
   (inject_Z (4 ^ 2 * 8) <= usable_memory opt device * (85 # 100))%Q).
Proof.
  intros opt A device.
  assert (Hs : shape A = (4, 4)) by reflexivity.
  assert (Hd : choose_device A (gpu_info_of opt [demo_device 0 8]) = Ok device)
    by reflexivity.
  split; [now split|].
  exact (proj1 (@in_core_iff_memory_suffices demo [demo_device 0 8] A
                  false true false opt demo_world device 4 Hs Hd)).
Defined.

(** C3 on the same matrix: buffer 1 still holds 7 after the call. *)
Lemma no_overwrite_keeps_the_input_witness :
  let opt := demo_options false false in
  let A := demo_tensor 1 true None in
  is_Some (@store demo demo_world !! data A) /\
  @store demo
    (snd (@gpu_cholesky demo [demo_device 0 8] A false true false opt
            demo_world)) !! data A = Some 7.
Proof.
  intros opt A.
  assert (HA : is_Some (@store demo demo_world !! data A))
    by (exists 7; reflexivity).
  split; [exact HA|].
  exact (proj1 (@no_overwrite_keeps_the_input demo [demo_device 0 8] A
                  false true opt demo_world HA)).
Defined.

(** C4 on the matrix on device 0, lower triangle, out-of-core forced. *)
Lemma out_of_core_unsupported_witness :
  let opt := demo_options false true in
  let A := demo_tensor 1 true (Some 0) in
  let device := set_actual_free_mem opt (snd (demo_device 0 8)) in
  (choose_device A (gpu_info_of opt [demo_device 0 8]) = Ok device /\
   in_core A device opt = false /\
   (normalized_upper (H := demo) A false = true \/ is_cuda A = true)) /\
  fst (@gpu_cholesky demo [demo_device 0 8] A false true true opt demo_world)
  = Raise (ValueError (msg_ooc_cuda ++ msg_ooc_cuda_hint)%string).
Proof.
  intros opt A device.
  assert (Hd : choose_device A (gpu_info_of opt [demo_device 0 8]) = Ok device)
    by reflexivity.
  assert (Hic : in_core A device opt = false) by (vm_compute; reflexivity).
  assert (Hor : normalized_upper (H := demo) A false = true \/ is_cuda A = true)
    by (right; reflexivity).
  split; [now repeat split|].
  pose proof (@out_of_core_unsupported demo [demo_device 0 8] A false true true
                opt demo_world device Hd Hic Hor) as (_ & _ & _ & Hhint).
  exact (proj1 (Hhint eq_refl eq_refl eq_refl eq_refl)).
Defined.

(** C4 as the claim states it fails: for the matrix on device 0 with the
    upper triangle and out-of-core forced, the out-of-core strategy is
    selected, and the error raised is the one about the triangle, which
    does not carry the hint. *)
Lemma out_of_core_hint_counterexample :
  let opt := demo_options false true in
  let A := demo_tensor 1 true (Some 0) in
  let device := set_actual_free_mem opt (snd (demo_device 0 8)) in
  choose_device A (gpu_info_of opt [demo_device 0 8]) = Ok device /\
  in_core A device opt = false /\
  is_cuda A = true /\ chol_force_ooc opt = true /\
  fst (@gpu_cholesky demo [demo_device 0 8] A true true true opt demo_world)
  = Raise (ValueError msg_only_lower) /\
  mentions msg_only_lower msg_ooc_cuda_hint = false.
Proof. vm_compute. repeat split. Qed.

(** C5 on the host matrix with the memory capped at 100 bytes. *)
Lemma force_in_core_never_falls_back_witness :
  let opt := mkOptions true false 2 (Finite 100) false in
  let A := demo_tensor 1 true None in
  let device := set_actual_free_mem opt (snd (demo_device 0 8)) in
  (choose_device A (gpu_info_of opt [demo_device 0 8]) = Ok device /\
   in_core A device opt = false /\ chol_force_in_core opt = true) /\
  @gpu_cholesky demo [demo_device 0 8] A false true true opt demo_world
  = (Raise (RuntimeError msg_force_in_core), demo_world).
Proof.
  intros opt A device.
  assert (Hd : choose_device A (gpu_info_of opt [demo_device 0 8]) = Ok device)
    by reflexivity.
  assert (Hic : in_core A device opt = false) by (vm_compute; reflexivity).
  assert (Hf : chol_force_in_core opt = true) by reflexivity.
  split; [now repeat split|].
  exact (proj1 (@force_in_core_never_falls_back demo [demo_device 0 8] A
                  false true true opt demo_world device Hd Hic Hf)).
Defined.

(** C7 on the row-major host matrix, upper triangle, cleaned in place. *)
Lemma row_major_is_factorised_transposed_witness :
  let opt := demo_options false false in
  let A := demo_tensor 1 false None in
  is_f_contig (H := demo) A = false /\
  forall R,
    fst (@gpu_cholesky demo [demo_device 0 8] A true true true opt demo_world)
    = Ok R ->
    R = transpose (transpose A).
Proof.
  intros opt A.
  assert (Hf : is_f_contig (H := demo) A = false) by reflexivity.
  split; [exact Hf|]. intros R HR.
  exact (proj1 (proj2 (@row_major_is_factorised_transposed demo
                         [demo_device 0 8] A true true true opt demo_world Hf)
                      R HR)).
Defined.

(** C8 on the device with 8 GiB free. *)
Lemma usable_memory_is_bounded_and_fresh_witness :
  let opt := demo_options false false in
  let g := set_actual_free_mem opt (snd (demo_device 0 8)) in
  (In g (gpu_info_of opt [demo_device 0 8]) /\ (0 <= free_memory g)%Q) /\
  (actual_free_mem g <= free_memory g)%Q.
Proof.
  intros opt g.
  assert (Hg : In g (gpu_info_of opt [demo_device 0 8])) by (left; reflexivity).
  assert (Hf : (0 <= free_memory g)%Q) by (vm_compute; discriminate).
  split; [now split|].
  exact (proj1 (proj2 (@usable_memory_is_bounded_and_fresh demo opt
                         [demo_device 0 8] g Hg Hf))).
Defined.

(** C9 on the host matrix with both options set. *)
Lemma both_forced_is_an_error_witness :
  let opt := demo_options true true in
  let A := demo_tensor 1 true None in
  let device := set_actual_free_mem opt (snd (demo_device 0 8)) in
  (choose_device A (gpu_info_of opt [demo_device 0 8]) = Ok device /\
   chol_force_in_core opt = true /\ chol_force_ooc opt = true) /\
  @gpu_cholesky demo [demo_device 0 8] A false true true opt demo_world
  = (Raise (RuntimeError msg_force_in_core), demo_world).
Proof.
  intros opt A device.
  assert (Hd : choose_device A (gpu_info_of opt [demo_device 0 8]) = Ok device)
    by reflexivity.
  split; [now repeat split|].
  exact (proj1 (@both_forced_is_an_error demo [demo_device 0 8] A
                  false true true opt demo_world device Hd eq_refl eq_refl)).
Defined.

(** C9 as the claim states it, for every input, fails: with both options
    set, a host matrix and an inventory that holds no GPU (only the CPU,
    under the key -1) make [max] raise on the empty list, and a matrix on
    device 1 that the inventory does not hold raises the error of line
    195. *)
Lemma both_forced_counterexample :
  let opt := demo_options true true in
  chol_force_in_core opt = true /\ chol_force_ooc opt = true /\
  fst (@gpu_cholesky demo [demo_device (-1) 8] (demo_tensor 1 true None)
         false true true opt demo_world)
  = Raise (ValueError "max() arg is an empty sequence") /\
  fst (@gpu_cholesky demo [demo_device 0 8] (demo_tensor 1 true (Some 1))
         false true true opt demo_world)
  = Raise (RuntimeError msg_not_recognized).
Proof. vm_compute. repeat split. Qed.

(** C10 on a 4x4 and on a 4000x4000 matrix on device 0: the same answer. *)
Lemma device_resident_needs_800_bytes_witness :
  let A := demo_tensor 1 true (Some 0) in
  let B := mkTensor 2 (4000, 4000) (1, 4000) float64 (Some 0) false in
  let device := mkDeviceInfo 0 (inject_Z (2 ^ 30)) 1000 in
  is_cuda A = true /\
  can_do_ic B device = can_do_ic A device.
Proof.
  intros A B device.
  assert (HA : is_cuda A = true) by reflexivity.
  split; [exact HA|].
  exact (proj2 (proj2 (device_resident_needs_800_bytes A device HA)) B eq_refl).
Defined.

(** ** More of the theorems on examples *)


(** From 96 to 1000 elements for a 10x10 matrix. *)
Lemma max_block_size_monotone_witness :
  ((96 <= 1000)%Q /\ BlockSize.max_block_size 10 96 = Ok 4) /\
  exists b', BlockSize.max_block_size 10 1000 = Ok b' /\ 4 <= b'.
Proof.
  assert (HA : (96 <= 1000)%Q) by (vm_compute; discriminate).
  assert (Hb : BlockSize.max_block_size 10 96 = Ok 4) by reflexivity.
  split; [now split|].
  exact (BlockSizeFacts.max_block_size_monotone 10 96 1000 4 HA Hb).
Defined.


(** Sizes 4, 4 and 2 on two devices: the block of index 2. *)
Lemma allocation_is_prefix_sums_witness :
  (2 < length [4; 4; 2])%nat /\
  ba_start (fst (allocate_blocks 2 [4; 4; 2])) !! 2%nat = Some 8.
Proof.
  assert (Hi : (2 < length [4; 4; 2])%nat) by (simpl; lia).
  split; [exact Hi|].
  exact (proj1 (AllocationFacts.allocation_is_prefix_sums 2 [4; 4; 2] 2 Hi)).
Defined.

Lemma allocation_devices_are_visible_witness :
  (0 < 2 /\ In 1 (ba_device_id (fst (allocate_blocks 2 [4; 4; 2])))) /\
  (0 <= 1 < 2 /\ In 1 (range 2)).
Proof.
  assert (Hg : 0 < 2) by lia.
  assert (Hd : In 1 (ba_device_id (fst (allocate_blocks 2 [4; 4; 2]))))
    by (right; left; reflexivity).
  split; [now split|].
  exact (AllocationFacts.allocation_devices_are_visible 2 [4; 4; 2] 1 Hg Hd).
Defined.

(** One block on two devices: device 1 gets none. *)
Lemma allocation_round_robin_witness :
  0 <= 1 < 2 /\
  (In 1 (ba_device_id (fst (allocate_blocks 2 [4])))
   <-> 1 < Z.of_nat (length [4])).
Proof.
  assert (Hd : 0 <= 1 < 2) by lia.
  split; [exact Hd|].
  exact (AllocationFacts.allocation_round_robin 2 [4] 1 Hd).
Defined.

(** Three devices with 5, 9 and 9 usable bytes: the first of the two with
    9 bytes is chosen. *)
Lemma host_matrix_gets_the_largest_device_witness :
  let A := demo_tensor 1 true None in
  let gpu_info :=
    [mkDeviceInfo 0 0 5; mkDeviceInfo 1 0 9; mkDeviceInfo 2 0 9] in
  (device_index A = None /\
   choose_device A gpu_info = Ok (mkDeviceInfo 1 0 9)) /\
  forall g, In g gpu_info -> (actual_free_mem g <= 9)%Q.
Proof.
  intros A gpu_info.
  assert (HA : device_index A = None) by reflexivity.
  assert (Hd : choose_device A gpu_info = Ok (mkDeviceInfo 1 0 9))
    by reflexivity.
  split; [now split|].
  exact (proj2 (proj1 (host_matrix_gets_the_largest_device A gpu_info HA)
                      (mkDeviceInfo 1 0 9) Hd)).
Defined.

Lemma device_matrix_gets_its_own_device_witness :
  let A := demo_tensor 1 true (Some 1) in
  let gpu_info := [mkDeviceInfo 0 0 5; mkDeviceInfo 1 0 9] in
  (device_index A = Some 1 /\
   choose_device A gpu_info = Ok (mkDeviceInfo 1 0 9)) /\
  (In (mkDeviceInfo 1 0 9) gpu_info /\ Id (mkDeviceInfo 1 0 9) = 1).
Proof.
  intros A gpu_info.
  assert (HA : device_index A = Some 1) by reflexivity.
  assert (Hd : choose_device A gpu_info = Ok (mkDeviceInfo 1 0 9))
    by reflexivity.
  split; [now split|].
  exact (proj1 (device_matrix_gets_its_own_device A gpu_info 1 HA)
               (mkDeviceInfo 1 0 9) Hd).
Defined.

(** The 4x4 host matrix needs 128 bytes; of the devices with 100 and 200
    usable bytes the second fits it, and is the one chosen. *)
Lemma greedy_choice_is_complete_witness :
  let A := demo_tensor 1 true None in
  let g0 := mkDeviceInfo 0 0 100 in
  let g1 := mkDeviceInfo 1 0 200 in
  (device_index A = None /\ choose_device A [g0; g1] = Ok g1 /\
   In g1 [g0; g1] /\ can_do_ic A g1 = true) /\
  can_do_ic A g1 = true.
Proof.
  intros A g0 g1.
  assert (HA : device_index A = None) by reflexivity.
  assert (Hd : choose_device A [g0; g1] = Ok g1) by reflexivity.
  assert (Hg : In g1 [g0; g1]) by (right; left; reflexivity).
  assert (Hic : can_do_ic A g1 = true) by reflexivity.
  split; [now repeat split|].
  exact (greedy_choice_is_complete A [g0; g1] g1 g1 HA Hd Hg Hic).
Defined.

(** The device with 8 GiB free under a cap of 100 bytes. *)
Lemma usable_memory_respects_the_cap_witness :
  let opt := mkOptions false false 2 (Finite 100) false in
  let g := set_actual_free_mem opt (snd (demo_device 0 8)) in
  (max_gpu_mem opt = Finite 100 /\ In g (gpu_info_of opt [demo_device 0 8])) /\
  (actual_free_mem g <= 100 * (95 # 100))%Q.
Proof.
  intros opt g.
  assert (Hc : max_gpu_mem opt = Finite 100) by reflexivity.
  assert (Hg : In g (gpu_info_of opt [demo_device 0 8])) by (left; reflexivity).
  split; [now split|].
  exact (proj1 (usable_memory_respects_the_cap opt [demo_device 0 8] 100 g
                  Hc Hg)).
Defined.

(** A device with 200 MiB free. *)
Lemma low_memory_device_is_never_in_core_witness :
  let opt := demo_options false false in
  let g := mkDeviceInfo 0 (inject_Z (200 * 2 ^ 20)) 0 in
  let A := demo_tensor 1 true (Some 0) in
  ((free_memory g < inject_Z (300 * 2 ^ 20))%Q /\
   0 <= fst (shape A) /\ 0 <= snd (shape A)) /\
  in_core A (set_actual_free_mem opt g) opt = false.
Proof.
  intros opt g A.
  assert (Hf : (free_memory g < inject_Z (300 * 2 ^ 20))%Q) by reflexivity.
  assert (H0 : 0 <= fst (shape A)) by (simpl; lia).
  assert (H1 : 0 <= snd (shape A)) by (simpl; lia).
  split; [now repeat split|].
  exact (proj2 (low_memory_device_is_never_in_core opt g A Hf H0 H1)).
Defined.

(** The row-major host matrix, factorised in place in core. *)
Lemma result_is_the_working_tensor_witness :
  let opt := demo_options false false in
  let A := demo_tensor 1 false None in
  fst (@gpu_cholesky demo [demo_device 0 8] A true true true opt demo_world)
    = Ok A /\
  A = @working_tensor demo A true demo_world.
Proof.
  intros opt A.
  assert (HR : fst (@gpu_cholesky demo [demo_device 0 8] A true true true opt
                      demo_world) = Ok A) by (vm_compute; reflexivity).
  split; [exact HR|].
  exact (proj1 (@result_is_the_working_tensor demo [demo_device 0 8] A
                  true true true opt demo_world A HR)).
Defined.

Lemma successful_call_writes_once_witness :
  let opt := demo_options false false in
  let A := demo_tensor 1 true None in
  fst (@gpu_cholesky demo [demo_device 0 8] A false true false opt demo_world)
    = Ok (@working_tensor demo A false demo_world) /\
  exists evs k,
    trace (snd (@gpu_cholesky demo [demo_device 0 8] A false true false opt
                  demo_world)) = @trace demo demo_world ++ evs /\
    List.filter (fun e => is_kernel e || is_zero_triang e) evs
    = [k; EvZeroTriang (@working_tensor demo A false demo_world) true] /\
    is_kernel k = true /\
    touches k = [data (@working_tensor demo A false demo_world)].
Proof.
  intros opt A.
  assert (HR : fst (@gpu_cholesky demo [demo_device 0 8] A false true false
                      opt demo_world)
               = Ok (@working_tensor demo A false demo_world))
    by (vm_compute; reflexivity).
  split; [exact HR|].
  exact (@successful_call_writes_once demo [demo_device 0 8] A false true
           false opt demo_world _ HR).
Defined.

(** A world with a second buffer, which the call does not touch. *)
Lemma call_writes_one_buffer_witness :
  let opt := demo_options false false in
  let A := demo_tensor 1 true None in
  let w := @mkWorld demo (<[2%positive := 5]> (<[1%positive := 7]> ∅)) [] in
  2%positive <> data (@working_tensor demo A true w) /\
  @store demo (snd (@gpu_cholesky demo [demo_device 0 8] A false true true
                      opt w)) !! 2%positive = Some 5.
Proof.
  intros opt A w.
  assert (Hl : 2%positive <> data (@working_tensor demo A true w))
    by discriminate.
  split; [exact Hl|].
  exact (@call_writes_one_buffer demo [demo_device 0 8] A false true true opt
           w 2%positive Hl).
Defined.

(** The host matrix with out-of-core forced. *)
Lemma out_of_core_kernel_call_witness :
  let opt := demo_options false true in
  let A := demo_tensor 1 true None in
  let ba := mkAlloc [0] [4] [4] [0] [0] in
  let evs := [EvSynchronize 0; EvParallelPotrf [0] ba A; EvZeroTriang A true] in
  (trace (snd (@gpu_cholesky demo [demo_device 0 8] A false true true opt
                 demo_world)) = @trace demo demo_world ++ evs /\
   In (EvParallelPotrf [0] ba A) evs) /\
  is_cuda A = false.
Proof.
  intros opt A ba evs.
  assert (Ht : trace (snd (@gpu_cholesky demo [demo_device 0 8] A false true
                             true opt demo_world))
               = @trace demo demo_world ++ evs) by (vm_compute; reflexivity).
  assert (Hin : In (EvParallelPotrf [0] ba A) evs)
    by (right; left; reflexivity).
  split; [now split|].
  pose proof (@out_of_core_kernel_call demo [demo_device 0 8] A false true
                true opt demo_world evs [0] ba A Ht Hin) as (_ & Hc & _).
  exact Hc.
Defined.

(** The row-major host matrix in core: the kernel gets the transpose, the
    flipped triangle and device 0. *)
Lemma in_core_kernel_call_witness :
  let opt := demo_options false false in
  let A := demo_tensor 1 false None in
  let evs := [EvCusolverPotrf (transpose A) false 4 0;
              EvZeroTriang (transpose A) true] in
  (trace (snd (@gpu_cholesky demo [demo_device 0 8] A true true true opt
                 demo_world)) = @trace demo demo_world ++ evs /\
   In (EvCusolverPotrf (transpose A) false 4 0) evs) /\
  chol_force_ooc opt = false.
Proof.
  intros opt A evs.
  assert (Ht : trace (snd (@gpu_cholesky demo [demo_device 0 8] A true true
                             true opt demo_world))
               = @trace demo demo_world ++ evs) by (vm_compute; reflexivity).
  assert (Hin : In (EvCusolverPotrf (transpose A) false 4 0) evs)
    by (left; reflexivity).
  split; [now split|].
  pose proof (@in_core_kernel_call demo [demo_device 0 8] A true true true
                opt demo_world evs (transpose A) false 4 0 Ht Hin)
    as (_ & _ & Ho & _).
  exact Ho.
Defined.

Lemma in_core_kernel_gets_column_major_witness :
  let opt := demo_options false false in
  let A := demo_tensor 1 false None in
  let evs := [EvCusolverPotrf (transpose A) false 4 0;
              EvZeroTriang (transpose A) true] in
  (trace (snd (@gpu_cholesky demo [demo_device 0 8] A true true true opt
                 demo_world)) = @trace demo demo_world ++ evs /\
   In (EvCusolverPotrf (transpose A) false 4 0) evs) /\
  (is_f_contig (H := demo) (transpose A) = true /\
   4 = fst (shape (transpose A))).
Proof.
  intros opt A evs.
  assert (Ht : trace (snd (@gpu_cholesky demo [demo_device 0 8] A true true
                             true opt demo_world))
               = @trace demo demo_world ++ evs) by (vm_compute; reflexivity).
  assert (Hin : In (EvCusolverPotrf (transpose A) false 4 0) evs)
    by (left; reflexivity).
  split; [now split|].
  exact (@in_core_kernel_gets_column_major demo [demo_device 0 8] A true true
           true opt demo_world evs (transpose A) false 4 0 Ht Hin).
Defined.

(** In core, in place, cleaned: 7 becomes (7 + 1) * 10. *)
Lemma in_core_success_contents_witness :
  let opt := demo_options false false in
  let A := demo_tensor 1 true None in
  let device := set_actual_free_mem opt (snd (demo_device 0 8)) in
  (choose_device A (gpu_info_of opt [demo_device 0 8]) = Ok device /\
   in_core A device opt = true /\
   is_f_contig (H := demo) (normalized (H := demo) A) = true /\
   @store demo demo_world !! data A = Some 7) /\
  @store demo (snd (@gpu_cholesky demo [demo_device 0 8] A false true true
                      opt demo_world)) !! data A = Some 80.
Proof.
  intros opt A device.
  assert (Hd : choose_device A (gpu_info_of opt [demo_device 0 8]) = Ok device)
    by reflexivity.
  assert (Hic : in_core A device opt = true) by (vm_compute; reflexivity).
  assert (Hf : is_f_contig (H := demo) (normalized (H := demo) A) = true)
    by reflexivity.
  assert (Hc : @store demo demo_world !! data A = Some 7) by reflexivity.
  split; [now repeat split|].
  exact (proj2 (@in_core_success_contents demo [demo_device 0 8] A false true
                  true opt demo_world device 7 Hd Hic Hf Hc eq_refl)).
Defined.

(** In core with a kernel that fails: the host buffer still holds 7. *)
Lemma in_core_failure_contents_witness :
  let opt := demo_options false false in
  let A := demo_tensor 1 true None in
  let device := set_actual_free_mem opt (snd (demo_device 0 8)) in
  let w := @mkWorld demo_failing (<[1%positive := 7]> ∅) [] in
  (choose_device A (gpu_info_of opt [demo_device 0 8]) = Ok device /\
   in_core A device opt = true /\
   is_f_contig (H := demo_failing) (normalized (H := demo_failing) A) = true /\
   @store demo_failing w !! data A = Some 7) /\
  (fst (@gpu_cholesky demo_failing [demo_device 0 8] A false true true opt w)
   = Raise (RuntimeError "potrf failed") /\
   @store demo_failing
     (snd (@gpu_cholesky demo_failing [demo_device 0 8] A false true true
             opt w)) !! data A = Some 7).
Proof.
  intros opt A device w.
  assert (Hd : choose_device A (gpu_info_of opt [demo_device 0 8]) = Ok device)
    by reflexivity.
  assert (Hic : in_core A device opt = true) by (vm_compute; reflexivity).
  assert (Hf : is_f_contig (H := demo_failing)
                 (normalized (H := demo_failing) A) = true) by reflexivity.
  assert (Hc : @store demo_failing w !! data A = Some 7) by reflexivity.
  split; [now repeat split|].
  pose proof (@in_core_failure_contents demo_failing [demo_device 0 8] A
                false true true opt w device 7 (RuntimeError "potrf failed")
                Hd Hic Hf Hc eq_refl) as (Hr & Hs & _).
  split; [exact Hr|exact Hs].
Defined.

(** A 4x4 view with strides (2, 8): column-major neither way. *)
Lemma in_core_rejects_strided_input_witness :
  let opt := demo_options false false in
  let A := mkTensor 1 (4, 4) (2, 8) float64 None false in
  let device := set_actual_free_mem opt (snd (demo_device 0 8)) in
  (choose_device A (gpu_info_of opt [demo_device 0 8]) = Ok device /\
   in_core A device opt = true /\
   is_f_contig (H := demo) A = false /\
   is_f_contig (H := demo) (transpose A) = false) /\
  fst (@gpu_cholesky demo [demo_device 0 8] A false true true opt demo_world)
  = Raise (RuntimeError "Cholesky input must be F-contiguous").
Proof.
  intros opt A device.
  assert (Hd : choose_device A (gpu_info_of opt [demo_device 0 8]) = Ok device)
    by reflexivity.
  assert (Hic : in_core A device opt = true) by (vm_compute; reflexivity).
  assert (Hf : is_f_contig (H := demo) A = false) by reflexivity.
  assert (Hft : is_f_contig (H := demo) (transpose A) = false) by reflexivity.
  split; [now repeat split|].
  exact (proj1 (@in_core_rejects_strided_input demo [demo_device 0 8] A false
                  true true opt demo_world device Hd Hic Hf Hft)).
Defined.

(** The runner on the 10x10 matrix and the two devices with 768 and 800
    usable bytes: 7 becomes 7 + 2. *)
Lemma runner_runs_the_plan_witness :
  let A := mkTensor 1 (10, 10) (1, 10) float64 None false in
  let g0 := mkDeviceInfo 0 0 768 in
  let g1 := mkDeviceInfo 1 0 800 in
  let opt := demo_options false false in
  (BlockSize.max_block_size 10
     (min_from (actual_free_mem g0) (map actual_free_mem [g1])
      / inject_Z (sizeof_dtype (tdtype A)))%Q = Ok 4 /\
   @store demo demo_world !! data A = Some 7) /\
  @_parallel_potrf_runner demo A opt [g0; g1] demo_world =
  (Ok A,
   @mkWorld demo (<[1%positive := 9]> (@store demo demo_world))
     [EvSynchronize 0; EvSynchronize 1;
      EvParallelPotrf [0; 1]
        (mkAlloc [0; 4; 8] [4; 8; 10] [4; 4; 2] [0; 1; 0] [0; 1; 2]) A]).
Proof.
  intros A g0 g1 opt.
  assert (Hb : BlockSize.max_block_size 10
                 (min_from (actual_free_mem g0) (map actual_free_mem [g1])
                  / inject_Z (sizeof_dtype (tdtype A)))%Q = Ok 4)
    by reflexivity.
  assert (Hc : @store demo demo_world !! data A = Some 7) by reflexivity.
  split; [now split|].
  exact (@runner_runs_the_plan demo A opt g0 [g1] demo_world 7 4 Hb Hc).
Defined.


(** Out of core, in place, cleaned: 7 becomes (7 + 2) * 10. *)
Lemma out_of_core_contents_witness :
  let opt := demo_options false true in
  let A := demo_tensor 1 true None in
  let g0 := set_actual_free_mem opt (snd (demo_device 0 8)) in
  (gpu_info_of opt [demo_device 0 8] = [g0] /\
   choose_device A [g0] = Ok g0 /\
   in_core A g0 opt = false /\
   chol_force_in_core opt = false /\
   normalized_upper (H := demo) A false = false /\
   is_cuda A = false /\
   BlockSize.max_block_size 4
     (min_from (actual_free_mem g0) (map actual_free_mem [])
      / inject_Z (sizeof_dtype (tdtype A)))%Q = Ok 31344 /\
   @store demo demo_world !! data A = Some 7) /\
  (fst (@gpu_cholesky demo [demo_device 0 8] A false true true opt demo_world)
   = Ok A /\
   @store demo (snd (@gpu_cholesky demo [demo_device 0 8] A false true true
                       opt demo_world)) !! data A = Some 90).
Proof.
  intros opt A g0.
  assert (Hgi : gpu_info_of opt [demo_device 0 8] = [g0]) by reflexivity.
  assert (Hd : choose_device A [g0] = Ok g0) by reflexivity.
  assert (Hic : in_core A g0 opt = false) by (vm_compute; reflexivity).
  assert (Hfi : chol_force_in_core opt = false) by reflexivity.
  assert (Hu : normalized_upper (H := demo) A false = false) by reflexivity.
  assert (Hcu : is_cuda A = false) by reflexivity.
  assert (Hb : BlockSize.max_block_size 4
                 (min_from (actual_free_mem g0) (map actual_free_mem [])
                  / inject_Z (sizeof_dtype (tdtype A)))%Q = Ok 31344)
    by (vm_compute; reflexivity).
  assert (Hc : @store demo demo_world !! data A = Some 7) by reflexivity.
  split; [now repeat split|].
  exact (@out_of_core_contents demo [demo_device 0 8] A false true true opt
           demo_world g0 g0 [] 7 31344 Hgi Hd Hic Hfi Hu Hcu Hb Hc).
Defined.
